(** * arbeit_now_job_analyzer: the collection-and-analysis pipeline of
    [src/main.py] ([IntegratedJobAnalyzer]), embedded shallowly.

    Python values are an inductive type, dictionaries created by the
    listing harvester are finite maps from field names to [str]-or-[None],
    exceptions are an error result, and the browser, the completion service
    and the JSON reader are capabilities of an environment record whose
    calls are threaded through an explicit state. *)

From Stdlib Require Import ZArith Ascii String List Lia Bool.
From stdpp Require Import base option list gmap strings pretty.

Open Scope string_scope.
Open Scope Z_scope.
Open Scope list_scope.

(** ** Python strings

    A [str] is modelled as a sequence of 8-bit characters (the code points
    below 256).  The functions follow [str.strip], [str.startswith],
    [str.endswith], slicing, [str.join] and the substring test [in]. *)

Module PyStr.

(** [str.isspace] on code points below 256: TAB..CR, FS..US, SPACE,
    NEL (133) and NBSP (160). *)
Definition is_space (c : ascii) : bool :=
  let n := nat_of_ascii c in
  ((9 <=? n) && (n <=? 13) || (28 <=? n) && (n <=? 32)
   || (n =? 133) || (n =? 160))%nat.

Definition is_empty (s : string) : bool :=
  match s with EmptyString => true | String _ _ => false end.

Fixpoint lstrip (s : string) : string :=
  match s with
  | EmptyString => EmptyString
  | String c s' => if is_space c then lstrip s' else s
  end.

Fixpoint rstrip (s : string) : string :=
  match s with
  | EmptyString => EmptyString
  | String c s' =>
      let r := rstrip s' in
      if is_space c && is_empty r then EmptyString else String c r
  end.

(** A text of white space only. *)
Fixpoint is_blank (s : string) : bool :=
  match s with
  | EmptyString => true
  | String c s' => is_space c && is_blank s'
  end.

(** [s.strip()] *)
Definition strip (s : string) : string := rstrip (lstrip s).

(** [s[n:]] for [n >= 0] *)
Fixpoint drop (n : nat) (s : string) : string :=
  match n, s with
  | O, _ => s
  | S _, EmptyString => EmptyString
  | S n', String _ s' => drop n' s'
  end.

(** [s[:n]] for [n >= 0] *)
Fixpoint take (n : nat) (s : string) : string :=
  match n, s with
  | O, _ => EmptyString
  | S _, EmptyString => EmptyString
  | S n', String c s' => String c (take n' s')
  end.

(** [s[:-n]] for [n > 0]: everything but the last [n] characters. *)
Definition drop_last (n : nat) (s : string) : string :=
  take (String.length s - n) s.

(** [s.startswith(p)] *)
Fixpoint startswith (p s : string) : bool :=
  match p, s with
  | EmptyString, _ => true
  | String _ _, EmptyString => false
  | String a p', String b s' => if Ascii.eqb a b then startswith p' s' else false
  end.

(** [s.endswith(p)] *)
Definition endswith (p s : string) : bool :=
  (String.length p <=? String.length s)%nat
  && String.eqb (drop (String.length s - String.length p) s) p.

(** [sep.join(parts)] *)
Fixpoint join (sep : string) (parts : list string) : string :=
  match parts with
  | [] => EmptyString
  | [x] => x
  | x :: rest => x +:+ sep +:+ join sep rest
  end.

(** [p in s] for two strings *)
Fixpoint contains (p s : string) : bool :=
  startswith p s ||
  match s with
  | EmptyString => false
  | String _ s' => contains p s'
  end.

(** The characters of a string, as iterating over it yields them. *)
Fixpoint chars (s : string) : list string :=
  match s with
  | EmptyString => []
  | String c s' => String c EmptyString :: chars s'
  end.

(** The double-quote character, for building JSON texts. *)
Definition dq : string := String (ascii_of_nat 34) EmptyString.

(** A double-quoted token. *)
Definition quoted (s : string) : string := dq +:+ s +:+ dq.

End PyStr.

(** ** Python values and exceptions *)

(** The values [json.loads] can return; a float keeps its literal. *)
#[warnings="-register-all"]
Inductive pyval : Type :=
  | PNone
  | PBool (b : bool)
  | PInt (z : Z)
  | PFloat (literal : string)
  | PStr (s : string)
  | PList (items : list pyval)
  | PDict (entries : list (string * pyval)).

(** The exceptions the modelled code can meet; all are subclasses of
    [Exception]. *)
Inductive exn : Type :=
  | KeyError (key : string)
  | TypeError
  | ValueError (msg : string)
  | AttributeError
  | JSONDecodeError
  | TimeoutException
  | OtherError (name : string).

(** The outcome of a computation that may raise. *)
Inductive res (A : Type) : Type :=
  | Ok (a : A)
  | Raise (e : exn).
Arguments Ok {A} a.
Arguments Raise {A} e.

Definition res_bind {A B} (r : res A) (k : A → res B) : res B :=
  match r with
  | Ok a => k a
  | Raise e => Raise e
  end.

Notation "'let!' x ':=' r 'in' k" := (res_bind r (λ x, k))
  (at level 10, x name, r at level 100, k at level 200).

(** Whether a computation returned. *)
Definition is_ok {A} (r : res A) : bool :=
  match r with
  | Ok _ => true
  | Raise _ => false
  end.

(** A dictionary with [str] keys in insertion order. *)
Definition pydict := list (string * pyval).

Fixpoint dict_get (k : string) (d : pydict) : option pyval :=
  match d with
  | [] => None
  | (k', v) :: d' => if String.eqb k k' then Some v else dict_get k d'
  end.

(** [d[k]] *)
Definition dict_item (k : string) (d : pydict) : res pyval :=
  match dict_get k d with
  | Some v => Ok v
  | None => Raise (KeyError k)
  end.

(** [k in d] *)
Definition dict_has (k : string) (d : pydict) : bool :=
  match dict_get k d with Some _ => true | None => false end.

(** A job dictionary as [extract_basic_job_info] builds it: field names to
    [str] or [None]. *)
Abbreviation job := (gmap string (option string)).

(** A value of a job dictionary as a Python value. *)
Definition of_field (f : option string) : pyval :=
  match f with
  | Some s => PStr s
  | None => PNone
  end.

(** [job_data[k]] *)
Definition job_item (k : string) (j : job) : res (option string) :=
  match j !! k with
  | Some f => Ok f
  | None => Raise (KeyError k)
  end.

(** [str(x)] inside an f-string, for a job field. *)
Definition py_str (f : option string) : string :=
  match f with
  | Some s => s
  | None => "None"
  end.

(** Truth value of a [str]-or-[None]: [None] and the empty string are
    false. *)
Definition truthy (f : option string) : bool :=
  match f with
  | None => false
  | Some s => negb (PyStr.is_empty s)
  end.

(** ** Values met by the analyzer: [in], subscripting and [join] *)

Definition is_str (k : string) (v : pyval) : bool :=
  match v with
  | PStr s => String.eqb k s
  | _ => false
  end.

(** [field in result] for a string [field]: key test on a dict, element
    test on a list, substring test on a string, [TypeError] otherwise. *)
Definition py_in (field : string) (result : pyval) : res bool :=
  match result with
  | PDict d => Ok (dict_has field d)
  | PList l => Ok (existsb (is_str field) l)
  | PStr s => Ok (PyStr.contains field s)
  | _ => Raise TypeError
  end.

(** [result[field]] for a string [field]: only a dict accepts it. *)
Definition py_subscript (result : pyval) (field : string) : res pyval :=
  match result with
  | PDict d => dict_item field d
  | _ => Raise TypeError
  end.

(** The items of a list when all of them are strings. *)
Fixpoint strings_of (l : list pyval) : option (list string) :=
  match l with
  | [] => Some []
  | PStr s :: l' =>
      match strings_of l' with
      | Some ss => Some (s :: ss)
      | None => None
      end
  | _ :: _ => None
  end.

(** ['; '.join(v)]: a list of strings is joined, a string is iterated by
    character, a dict by key; anything else raises [TypeError]. *)
Definition py_join (sep : string) (v : pyval) : res string :=
  match v with
  | PList l =>
      match strings_of l with
      | Some ss => Ok (PyStr.join sep ss)
      | None => Raise TypeError
      end
  | PStr s => Ok (PyStr.join sep (PyStr.chars s))
  | PDict d => Ok (PyStr.join sep (map fst d))
  | _ => Raise TypeError
  end.

(** ** The outside world *)

(** One listing element of a results page: the text of its title heading
    when there is one, the [href] of the link inside the heading when there
    is one (the attribute itself may be missing), the company and the
    location texts. *)
Record listing_element : Type := {
  el_title : option string;
  el_href : option (option string);
  el_company : option string;
  el_location : option string
}.

(** The table library ([pandas]) as the report step calls it.  A frame is
    whatever the library builds from the records: which type each column
    gets and how each cell is stored is the library's business, and so is
    whether a statistic can be computed on a column.  [frame_new records]
    stands for [pd.DataFrame(records)], [frame_len df] for [len(df)],
    [frame_insert loc column values df] for [df.insert(loc, column, values)]
    (the frame afterwards), [frame_mean column df] for
    [df[column].mean()] formatted with two decimals,
    [frame_count column value df] for [(df[column] == value).sum()],
    [frame_by_category df] for the grouped table of lines 369-373 and
    [frame_top df] for the five best rows of lines 377-379, both as
    printed. *)
Record table_library : Type := {
  Frame : Type;
  frame_new : list pydict → res Frame;
  frame_len : Frame → Z;
  frame_insert : Z → string → list Z → Frame → res Frame;
  frame_mean : string → Frame → res string;
  frame_count : string → string → Frame → res string;
  frame_by_category : Frame → res string;
  frame_top : Frame → res string
}.

(** The capabilities the analyzer consumes.  [listing_page url] stands for
    [driver.get(url)] followed by [find_elements]; [description_page url]
    for [driver.get(url)], the wait for the description container and the
    text extraction; [chat_completion system user] for the completion
    request, giving [message.content]; [json_loads] for [json.loads], where
    [None] is [JSONDecodeError]; [tables] for [pandas]. *)
Record Env : Type := {
  World : Type;
  listing_page : string → World → res (list listing_element) * World;
  description_page : option string → World → res string * World;
  chat_completion : string → string → World → res (option string) * World;
  json_loads : string → option pyval;
  tables : table_library
}.

Inductive log_entry : Type :=
  | LogDescriptionFailed (url : option string)
  | LogBasicInfoError
  | LogScrapeError (page : Z).

(** The lines of the report block, one constructor per [print] of lines
    361-379. *)
Inductive console_entry : Type :=
  | ResultsSaved (file : string)
  | SummaryTitle
  | TotalJobs (count : Z)
  | AverageScore (text : string)
  | GermanJobs (text : string)
  | CategoryTitle
  | CategoryTable (text : string)
  | TopTitle
  | TopTable (text : string).

(** The fields of [self] the pipeline reads. *)
Record analyzer : Type := {
  base_url : string;
  search_categories : list string;
  max_pages : Z;
  resume : string;
  filename : string
}.

(** The state threaded through the run: the world, the URLs handed to
    [driver.get] in order, the prompts sent to the completion service, the
    entries of [logging.error], the files written and the lines of the
    report block printed at the end.  Pauses and progress prints are not
    recorded. *)
Record St (E : Env) : Type := {
  world : World E;
  fetched : list (option string);
  asked : list (string * string);
  error_log : list log_entry;
  files : list (string * Frame (tables E));
  console : list console_entry
}.
Arguments world {E} _.
Arguments fetched {E} _.
Arguments asked {E} _.
Arguments error_log {E} _.
Arguments files {E} _.
Arguments console {E} _.

(** Computations over the state that may raise. *)
Definition M (E : Env) (A : Type) : Type := St E → res A * St E.

Definition ret {E A} (a : A) : M E A := λ st, (Ok a, st).

Definition raise {E A} (e : exn) : M E A := λ st, (Raise e, st).

Definition bind {E A B} (m : M E A) (k : A → M E B) : M E B :=
  λ st, match m st with
        | (Ok a, st') => k a st'
        | (Raise e, st') => (Raise e, st')
        end.

Definition lift {E A} (r : res A) : M E A := λ st, (r, st).

(** [try: m  except Exception as e: h e] *)
Definition try_except {E A} (m : M E A) (h : exn → M E A) : M E A :=
  λ st, match m st with
        | (Ok a, st') => (Ok a, st')
        | (Raise e, st') => h e st'
        end.

Notation "'let*' x ':=' m 'in' k" := (bind m (λ x, k))
  (at level 10, x name, m at level 100, k at level 200).

(** ** The analyzer *)

(** The instruction to the completion service ([system_prompt]). *)
Definition system_prompt : string :=
  "You are an expert ATS system and career advisor analyzing job descriptions and resumes.
            You must respond ONLY with a valid JSON object in the exact format shown below:
            {
                " +:+ PyStr.quoted "match_score" +:+ ": <number between 0-100>,
                " +:+ PyStr.quoted "german_required" +:+ ": <"
  +:+ PyStr.quoted "Yes" +:+ " or " +:+ PyStr.quoted "No" +:+ ">,
                " +:+ PyStr.quoted "key_matches" +:+ ": <array of strings>,
                " +:+ PyStr.quoted "missing_skills" +:+ ": <array of strings>,
                " +:+ PyStr.quoted "recommendation" +:+ ": <string>
            }
            Do not include any other text or explanation outside the JSON object.".

(** The request built from the job title, the resume and the description
    ([user_prompt]). *)
Definition user_prompt (title : option string) (resume_text : string)
    (description : option string) : string :=
  "
            JOB TITLE: " +:+ py_str title +:+ "

            RESUME:
            " +:+ resume_text +:+ "

            JOB DESCRIPTION:
            " +:+ py_str description +:+ "

            Analyze based on:
            1. Skills Match (30%): Technical and soft skills alignment
            2. Experience Relevance (30%): Years and type of experience
            3. Role Alignment (25%): Job responsibility match
            4. Education/Qualifications (15%): Required qualifications match

            German Language:
            - " +:+ PyStr.quoted "Yes" +:+ " only if German explicitly required
            - " +:+ PyStr.quoted "No" +:+ " if preferred/optional/not mentioned
            - " +:+ PyStr.quoted "No" +:+ " if job is in German but doesn't specify requirement

            Respond ONLY with a JSON object matching the format specified in the system prompt.
            Do not include any text before or after the JSON object.".

Definition required_fields : list string :=
  ["match_score"; "german_required"; "key_matches"; "missing_skills";
   "recommendation"].

(** The loop over [required_fields]: the first field that is not [in]
    the result raises [ValueError]. *)
Fixpoint check_required (fields : list string) (result : pyval) : res unit :=
  match fields with
  | [] => Ok tt
  | field :: rest =>
      let! present := py_in field result in
      if present then check_required rest result
      else Raise (ValueError ("Missing required field: " +:+ field))
  end.

(** The dictionary literal of the success path, its entries evaluated in
    order. *)
Definition build_analyzed_job (job_data : job) (result : pyval) : res pydict :=
  let! search_category := job_item "search_category" job_data in
  let! title := job_item "title" job_data in
  let! company := job_item "company" job_data in
  let! location := job_item "location" job_data in
  let! url := job_item "url" job_data in
  let! match_score := py_subscript result "match_score" in
  let! german_required := py_subscript result "german_required" in
  let! key_matches := py_subscript result "key_matches" in
  let! key_matches_joined := py_join "; " key_matches in
  let! missing_skills := py_subscript result "missing_skills" in
  let! missing_skills_joined := py_join "; " missing_skills in
  let! recommendation := py_subscript result "recommendation" in
  Ok [("search_category", of_field search_category);
      ("title", of_field title);
      ("company", of_field company);
      ("location", of_field location);
      ("url", of_field url);
      ("match_score", match_score);
      ("german_required", german_required);
      ("key_matches", PStr key_matches_joined);
      ("missing_skills", PStr missing_skills_joined);
      ("recommendation", recommendation)].

(** [create_fallback_analysis] *)
Definition create_fallback_analysis (job_data : job) : res pydict :=
  let! search_category := job_item "search_category" job_data in
  let! title := job_item "title" job_data in
  let! company := job_item "company" job_data in
  let! location := job_item "location" job_data in
  let! url := job_item "url" job_data in
  Ok [("search_category", of_field search_category);
      ("title", of_field title);
      ("company", of_field company);
      ("location", of_field location);
      ("url", of_field url);
      ("match_score", PInt 0);
      ("german_required", PStr "No");
      ("key_matches", PStr "Analysis failed");
      ("missing_skills", PStr "Analysis failed");
      ("recommendation", PStr "Analysis failed - please review manually")].

Section Pipeline.

Variable E : Env.
Variable self : analyzer.

(** [self.driver.get(url)] and what follows it on a job page; the URL is
    recorded whether or not the page can be read. *)
Definition open_description (url : option string) : M E string :=
  λ st,
    let '(r, w) := description_page E url (world st) in
    (r, {| world := w; fetched := fetched st ++ [url]; asked := asked st;
           error_log := error_log st; files := files st;
           console := console st |}).

(** [self.driver.get(url)] and [find_elements] on a listings page. *)
Definition open_listing (url : string) : M E (list listing_element) :=
  λ st,
    let '(r, w) := listing_page E url (world st) in
    (r, {| world := w; fetched := fetched st ++ [Some url];
           asked := asked st; error_log := error_log st;
           files := files st; console := console st |}).

(** [self.client.chat.completions.create(...)], reduced to the content of
    the first choice. *)
Definition chat (system user : string) : M E (option string) :=
  λ st,
    let '(r, w) := chat_completion E system user (world st) in
    (r, {| world := w; fetched := fetched st;
           asked := asked st ++ [(system, user)];
           error_log := error_log st; files := files st;
           console := console st |}).

(** [logging.error(...)] *)
Definition log_error (entry : log_entry) : M E unit :=
  λ st,
    (Ok tt, {| world := world st; fetched := fetched st; asked := asked st;
               error_log := error_log st ++ [entry]; files := files st;
               console := console st |}).

(** [print(...)] of the report block *)
Definition print_entry (entry : console_entry) : M E unit :=
  λ st,
    (Ok tt, {| world := world st; fetched := fetched st; asked := asked st;
               error_log := error_log st; files := files st;
               console := console st ++ [entry] |}).

(** [df.to_csv(name, ...)] *)
Definition to_csv (name : string) (df : Frame (tables E)) : M E unit :=
  λ st,
    (Ok tt, {| world := world st; fetched := fetched st; asked := asked st;
               error_log := error_log st; files := files st ++ [(name, df)];
               console := console st |}).

(** The fence recovery of [analyze_with_gpt] (the handler of
    [json.JSONDecodeError]). *)
Definition clean_response (response_text : string) : string :=
  let cleaned_response := PyStr.strip response_text in
  let cleaned_response :=
    if PyStr.startswith "```json" cleaned_response
    then PyStr.drop 7 cleaned_response else cleaned_response in
  let cleaned_response :=
    if PyStr.endswith "```" cleaned_response
    then PyStr.drop_last 3 cleaned_response else cleaned_response in
  PyStr.strip cleaned_response.

(** The parse of the response, with the recovery attempt. *)
Definition parse_response (response_text : string) : res pyval :=
  match json_loads E response_text with
  | Some result => Ok result
  | None =>
      match json_loads E (clean_response response_text) with
      | Some result => Ok result
      | None => Raise JSONDecodeError
      end
  end.

(** What the [try] block does with the stripped response text. *)
Definition interpret_response (job_data : job) (response_text : string)
    : res pydict :=
  let! result := parse_response response_text in
  let! _checked := check_required required_fields result in
  build_analyzed_job job_data result.

(** The [try] block of [analyze_with_gpt]. *)
Definition analyze_attempt (job_data : job) : M E pydict :=
  let* _shown := lift (job_item "title" job_data) in
  let* title := lift (job_item "title" job_data) in
  let* description := lift (job_item "description" job_data) in
  let* content :=
    chat system_prompt (user_prompt title (resume self) description) in
  match content with
  | None => raise AttributeError
  | Some text => lift (interpret_response job_data (PyStr.strip text))
  end.

(** [analyze_with_gpt]: the handler prints the title and returns the
    fallback. *)
Definition analyze_with_gpt (job_data : job) : M E pydict :=
  try_except (analyze_attempt job_data)
    (λ _, let* _shown := lift (job_item "title" job_data) in
          lift (create_fallback_analysis job_data)).

(** The value returned when every attempt at a description failed. *)
Definition failed_description : string := "Failed to fetch description".

(** The loop of [extract_job_description] over the attempts of
    [range(max_retries)] left to make.  Falling off the loop returns
    [None]. *)
Fixpoint attempt_loop (url : option string) (max_retries : Z)
    (attempts : list Z) : M E (option string) :=
  match attempts with
  | [] => ret None
  | attempt :: rest =>
      let* returned :=
        try_except
          (let* description := open_description url in
           ret (Some (Some description)))
          (λ _,
             if attempt =? max_retries - 1
             then let* _logged := log_error (LogDescriptionFailed url) in
                  ret (Some (Some failed_description))
             else ret None) in
      match returned with
      | Some value => ret value
      | None => attempt_loop url max_retries rest
      end
  end.

(** [extract_job_description] *)
Definition extract_job_description (url : option string) (max_retries : Z)
    : M E (option string) :=
  attempt_loop url max_retries (seqZ 0 max_retries).

(** [find_element] on a part of a listing: a missing part raises. *)
Definition find_element {A} (part : option A) : res A :=
  match part with
  | Some a => Ok a
  | None => Raise (OtherError "NoSuchElementException")
  end.

(** [extract_basic_job_info] *)
Definition extract_basic_job_info (job_element : listing_element)
    (search_category : string) : M E (option job) :=
  try_except
    (let* title_text := lift (find_element (el_title job_element)) in
     let title := PyStr.strip title_text in
     let* url := lift (find_element (el_href job_element)) in
     let* company_text := lift (find_element (el_company job_element)) in
     let company := PyStr.strip company_text in
     let* location_text := lift (find_element (el_location job_element)) in
     let location := PyStr.strip location_text in
     ret (Some (<["search_category" := Some search_category]>
                (<["title" := Some title]>
                (<["company" := Some company]>
                (<["location" := Some location]>
                (<["url" := url]>
                (<["description" := None]> (∅ : job)))))))))
    (λ _, let* _logged := log_error LogBasicInfoError in ret None).

(** The URL of a listings page. *)
Definition listing_url (search_category : string) (page_number : Z)
    : string :=
  base_url self +:+ "/?search=" +:+ search_category
  +:+ "&tags=&sort_by=newest&page=" +:+ pretty page_number.

(** The loop of [scrape_page] over the listing elements. *)
Fixpoint collect_page_jobs (job_listings : list listing_element)
    (search_category : string) (page_jobs : list job) : M E (list job) :=
  match job_listings with
  | [] => ret page_jobs
  | job_listing :: rest =>
      let* job_info := extract_basic_job_info job_listing search_category in
      match job_info with
      | Some info =>
          if decide (info = ∅)
          then collect_page_jobs rest search_category page_jobs
          else collect_page_jobs rest search_category (page_jobs ++ [info])
      | None => collect_page_jobs rest search_category page_jobs
      end
  end.

(** [scrape_page] *)
Definition scrape_page (page_number : Z) (search_category : string)
    : M E (list job) :=
  try_except
    (let url := listing_url search_category page_number in
     let* job_listings := open_listing url in
     collect_page_jobs job_listings search_category [])
    (λ _, let* _logged := log_error (LogScrapeError page_number) in ret []).

(** The loop of [remove_duplicates]. *)
Fixpoint remove_duplicates_loop (jobs unique_jobs : list job)
    (seen_urls : gset (option string)) : res (list job) :=
  match jobs with
  | [] => Ok unique_jobs
  | job_data :: rest =>
      let! url := job_item "url" job_data in
      if decide (url ∈ seen_urls)
      then remove_duplicates_loop rest unique_jobs seen_urls
      else remove_duplicates_loop rest (unique_jobs ++ [job_data])
             ({[url]} ∪ seen_urls)
  end.

(** [remove_duplicates] *)
Definition remove_duplicates (jobs : list job) : res (list job) :=
  remove_duplicates_loop jobs [] ∅.

(** The page loop of [process_jobs] for one category, over the pages of
    [range(1, max_pages + 1)] left to visit; an empty page breaks. *)
Fixpoint harvest_pages (pages : list Z) (category : string)
    (all_jobs : list job) : M E (list job) :=
  match pages with
  | [] => ret all_jobs
  | page :: rest =>
      let* page_jobs := scrape_page page category in
      match page_jobs with
      | [] => ret all_jobs
      | _ :: _ => harvest_pages rest category (all_jobs ++ page_jobs)
      end
  end.

(** The category loop of [process_jobs]. *)
Fixpoint harvest_categories (categories : list string)
    (all_jobs : list job) : M E (list job) :=
  match categories with
  | [] => ret all_jobs
  | category :: rest =>
      let* all_jobs' :=
        harvest_pages (seqZ 1 (max_pages self)) category all_jobs in
      harvest_categories rest all_jobs'
  end.

(** The body of the second loop of [process_jobs] for one job. *)
Definition process_job (job_data : job) (analyzed_jobs : list pydict)
    : M E (list pydict) :=
  try_except
    (let* _shown := lift (job_item "title" job_data) in
     let* url := lift (job_item "url" job_data) in
     let* description := extract_job_description url 3 in
     if negb (truthy description) then ret analyzed_jobs
     else
       let job_data' := <["description" := description]> job_data in
       let* analyzed_job := analyze_with_gpt job_data' in
       match analyzed_job with
       | [] => ret analyzed_jobs
       | _ :: _ => ret (analyzed_jobs ++ [analyzed_job])
       end)
    (λ _, let* _shown := lift (job_item "title" job_data) in
          ret analyzed_jobs).

(** The second loop of [process_jobs]. *)
Fixpoint analyze_jobs (unique_jobs : list job) (analyzed_jobs : list pydict)
    : M E (list pydict) :=
  match unique_jobs with
  | [] => ret analyzed_jobs
  | job_data :: rest =>
      let* analyzed_jobs' := process_job job_data analyzed_jobs in
      analyze_jobs rest analyzed_jobs'
  end.

(** The last step of [process_jobs], lines 357-379: with no analyzed job
    nothing is written or printed.  Otherwise the frame is built, the
    sequence column is inserted in front and the file is written; then the
    report block is printed line by line, and a statistic the library
    cannot compute ([mean], [groupby], [sort_values] on a column that is
    not numeric) raises after the file is there and after the lines
    before it.

    Line 361 of the source is indented by 10 spaces, between the 8 of the
    [if] and the 12 of its block, and Python refuses the file for it.  The
    step is modelled as the block reads, with that line at the 12 spaces
    of its neighbours. *)
Definition save_results (analyzed_jobs : list pydict) : M E unit :=
  match analyzed_jobs with
  | [] => ret tt
  | _ :: _ =>
      let* df := lift (frame_new (tables E) analyzed_jobs) in
      let* df :=
        lift (frame_insert (tables E) 0 "S.No"
                (seqZ 1 (frame_len (tables E) df)) df) in
      let* _written := to_csv (filename self) df in
      let* _shown := print_entry (ResultsSaved (filename self)) in
      let* _shown := print_entry SummaryTitle in
      let* _shown := print_entry (TotalJobs (frame_len (tables E) df)) in
      let* average := lift (frame_mean (tables E) "match_score" df) in
      let* _shown := print_entry (AverageScore average) in
      let* german :=
        lift (frame_count (tables E) "german_required" "Yes" df) in
      let* _shown := print_entry (GermanJobs german) in
      let* _shown := print_entry CategoryTitle in
      let* category_summary := lift (frame_by_category (tables E) df) in
      let* _shown := print_entry (CategoryTable category_summary) in
      let* _shown := print_entry TopTitle in
      let* top := lift (frame_top (tables E) df) in
      print_entry (TopTable top)
  end.

(** [process_jobs] *)
Definition process_jobs : M E unit :=
  let* all_jobs := harvest_categories (search_categories self) [] in
  let* unique_jobs := lift (remove_duplicates all_jobs) in
  let* analyzed_jobs := analyze_jobs unique_jobs [] in
  save_results analyzed_jobs.

End Pipeline.

(** ** A reader for a fragment of JSON

    Objects, arrays, strings without escapes, integers and the three
    literals, with JSON white space between tokens.  On a text of this
    fragment it returns what [json.loads] returns; it is used to run the
    analyzer on concrete responses. *)

Module Json.

Definition is_ws (c : ascii) : bool :=
  let n := nat_of_ascii c in
  ((n =? 32) || (n =? 9) || (n =? 10) || (n =? 13))%nat.

Fixpoint skip_ws (s : string) : string :=
  match s with
  | EmptyString => EmptyString
  | String c s' => if is_ws c then skip_ws s' else s
  end.

Definition is_digit (c : ascii) : bool :=
  let n := nat_of_ascii c in ((48 <=? n) && (n <=? 57))%nat.

Definition digit_value (c : ascii) : Z := Z.of_nat (nat_of_ascii c) - 48.

(** The characters up to the closing quote and the text after it. *)
Fixpoint read_string (s : string) : option (string * string) :=
  match s with
  | EmptyString => None
  | String c s' =>
      let n := nat_of_ascii c in
      if (n =? 34)%nat then Some (EmptyString, s')
      else if ((n =? 92) || (n <? 32))%nat then None
      else match read_string s' with
           | Some (body, rest) => Some (String c body, rest)
           | None => None
           end
  end.

(** The digits at the head of a text, as a number, and the rest. *)
Fixpoint read_digits (acc : Z) (s : string) : Z * string :=
  match s with
  | String c s' =>
      if is_digit c then read_digits (10 * acc + digit_value c) s'
      else (acc, s)
  | EmptyString => (acc, s)
  end.

Definition starts_number_tail (s : string) : bool :=
  match s with
  | String c _ =>
      let n := nat_of_ascii c in ((n =? 46) || (n =? 101) || (n =? 69))%nat
  | EmptyString => false
  end.

(** An integer without sign: no leading zero, no fraction, no exponent. *)
Definition read_natural (s : string) : option (Z * string) :=
  match s with
  | String c s' =>
      if is_digit c then
        let '(n, rest) := read_digits 0 s in
        if ((nat_of_ascii c =? 48)%nat
            && negb (String.eqb rest s')) || starts_number_tail rest
        then None else Some (n, rest)
      else None
  | EmptyString => None
  end.

(** Assignment to a key: the last value wins, the key keeps its place. *)
Fixpoint dict_set (k : string) (v : pyval) (d : pydict) : pydict :=
  match d with
  | [] => [(k, v)]
  | (k', v') :: d' =>
      if String.eqb k k' then (k, v) :: d' else (k', v') :: dict_set k v d'
  end.

Fixpoint read_value (fuel : nat) (s : string) : option (pyval * string) :=
  match fuel with
  | O => None
  | S fuel' =>
      match skip_ws s with
      | EmptyString => None
      | String c rest =>
          let n := nat_of_ascii c in
          if (n =? 123)%nat then
            match skip_ws rest with
            | String c' rest' =>
                if (nat_of_ascii c' =? 125)%nat then Some (PDict [], rest')
                else read_members fuel' (skip_ws rest) []
            | EmptyString => None
            end
          else if (n =? 91)%nat then
            match skip_ws rest with
            | String c' rest' =>
                if (nat_of_ascii c' =? 93)%nat then Some (PList [], rest')
                else read_elements fuel' (skip_ws rest) []
            | EmptyString => None
            end
          else if (n =? 34)%nat then
            match read_string rest with
            | Some (body, rest') => Some (PStr body, rest')
            | None => None
            end
          else if (n =? 45)%nat then
            match read_natural rest with
            | Some (z, rest') => Some (PInt (- z), rest')
            | None => None
            end
          else if is_digit c then
            match read_natural (String c rest) with
            | Some (z, rest') => Some (PInt z, rest')
            | None => None
            end
          else if PyStr.startswith "true" (String c rest)
          then Some (PBool true, PyStr.drop 4 (String c rest))
          else if PyStr.startswith "false" (String c rest)
          then Some (PBool false, PyStr.drop 5 (String c rest))
          else if PyStr.startswith "null" (String c rest)
          then Some (PNone, PyStr.drop 4 (String c rest))
          else None
      end
  end
with read_members (fuel : nat) (s : string) (acc : pydict)
    : option (pyval * string) :=
  match fuel with
  | O => None
  | S fuel' =>
      match skip_ws s with
      | String c rest =>
          if (nat_of_ascii c =? 34)%nat then
            match read_string rest with
            | Some (key, rest1) =>
                match skip_ws rest1 with
                | String c1 rest2 =>
                    if (nat_of_ascii c1 =? 58)%nat then
                      match read_value fuel' rest2 with
                      | Some (v, rest3) =>
                          match skip_ws rest3 with
                          | String c3 rest4 =>
                              let n3 := nat_of_ascii c3 in
                              if (n3 =? 44)%nat
                              then read_members fuel' rest4 (dict_set key v acc)
                              else if (n3 =? 125)%nat
                              then Some (PDict (dict_set key v acc), rest4)
                              else None
                          | EmptyString => None
                          end
                      | None => None
                      end
                    else None
                | EmptyString => None
                end
            | None => None
            end
          else None
      | EmptyString => None
      end
  end
with read_elements (fuel : nat) (s : string) (acc : list pyval)
    : option (pyval * string) :=
  match fuel with
  | O => None
  | S fuel' =>
      match read_value fuel' s with
      | Some (v, rest) =>
          match skip_ws rest with
          | String c rest' =>
              let n := nat_of_ascii c in
              if (n =? 44)%nat then read_elements fuel' rest' (acc ++ [v])
              else if (n =? 93)%nat then Some (PList (acc ++ [v]), rest')
              else None
          | EmptyString => None
          end
      | None => None
      end
  end.

(** The whole text must be one value. *)
Definition loads (s : string) : option pyval :=
  match read_value (2 * String.length s + 2) s with
  | Some (v, rest) =>
      if PyStr.is_empty (skip_ws rest) then Some v else None
  | None => None
  end.

(** Writers for the examples. *)
Definition member (k v : string) : string := PyStr.quoted k +:+ ": " +:+ v.

Definition object (members : list string) : string :=
  "{" +:+ PyStr.join ", " members +:+ "}".

Definition array (items : list string) : string :=
  "[" +:+ PyStr.join ", " items +:+ "]".

End Json.

(** ** Environments for running the pipeline on examples *)

(** The example worlds have no table library: building a frame raises, and
    there is no frame to ask anything of.  Their runs are followed up to
    the report step, or write no report. *)
Definition no_tables : table_library :=
  {| Frame := Empty_set;
     frame_new := λ _, Raise (OtherError "ModuleNotFoundError");
     frame_len := λ df, match df with end;
     frame_insert := λ _ _ _ df, match df with end;
     frame_mean := λ _ df, match df with end;
     frame_count := λ _ _ df, match df with end;
     frame_by_category := λ df, match df with end;
     frame_top := λ df, match df with end |}.

(** A world without memory: every listings page, job page and completion
    request is answered by a fixed function of its arguments; JSON is read
    by [Json.loads]. *)
Definition fixed_env (listings : string → res (list listing_element))
    (descriptions : option string → res string)
    (reply : res (option string)) : Env :=
  {| World := unit;
     listing_page := λ url w, (listings url, w);
     description_page := λ url w, (descriptions url, w);
     chat_completion := λ _ _ w, (reply, w);
     json_loads := Json.loads;
     tables := no_tables |}.

Definition initial_state (E : Env) (w : World E) : St E :=
  {| world := w; fetched := []; asked := []; error_log := []; files := [];
     console := [] |}.

Definition example_analyzer : analyzer :=
  {| base_url := "https://www.arbeitnow.com";
     search_categories := ["strategy"; "project"];
     max_pages := 2;
     resume := "Product manager, ten years";
     filename := "output/Analyzed_Jobs_20240101_120000.csv" |}.

Definition example_job : job :=
  <["search_category" := Some "strategy"]>
  (<["title" := Some "Strategy Lead"]>
  (<["company" := Some "Acme GmbH"]>
  (<["location" := Some "Berlin"]>
  (<["url" := Some "https://www.arbeitnow.com/jobs/1"]>
  (<["description" := Some "Lead the strategy team."]> (∅ : job)))))).

(** A response with all five fields, and the same response inside a fence
    with the [json] tag and inside a fence without a tag. *)
Definition example_response : string :=
  Json.object
    [Json.member "match_score" "150";
     Json.member "german_required" (PyStr.quoted "No");
     Json.member "key_matches"
       (Json.array [PyStr.quoted "SQL"; PyStr.quoted "Python"]);
     Json.member "missing_skills" (Json.array [PyStr.quoted "German"]);
     Json.member "recommendation" (PyStr.quoted "Apply")].

Definition newline : string := String (ascii_of_nat 10) EmptyString.

Definition tagged_fence (body : string) : string :=
  "```json" +:+ newline +:+ body +:+ newline +:+ "```".

Definition plain_fence (body : string) : string :=
  "```" +:+ newline +:+ body +:+ newline +:+ "```".

(** The world in which the completion service answers [text] and every job
    page reads [Lead the strategy team.]. *)
Definition reply_env (text : string) : Env :=
  fixed_env (λ _, Ok []) (λ _, Ok "Lead the strategy team.") (Ok (Some text)).

(** ** Notions used by the statements *)

(** A job page that cannot be read in any state of the world. *)
Definition always_fails (E : Env) (url : option string) : Prop :=
  ∀ w, ∃ e w', description_page E url w = (Raise e, w').

(** The records of [jobs] kept by the loop of [remove_duplicates] when the
    URLs of [seen] have been met before. *)
Fixpoint keep_new (seen : gset (option string)) (jobs : list job) : list job :=
  match jobs with
  | [] => []
  | job_data :: rest =>
      match job_data !! "url" with
      | Some url =>
          if decide (url ∈ seen) then keep_new seen rest
          else job_data :: keep_new ({[url]} ∪ seen) rest
      | None => []
      end
  end.

Definition has_url (job_data : job) : Prop := is_Some (job_data !! "url").

(** [preserves proj m]: running [m] does not change the part [proj] of the
    state. *)
Definition preserves {E : Env} {A B : Type} (proj : St E → B) (m : M E A) : Prop :=
  ∀ st r st', m st = (r, st') → proj st' = proj st.


(** The keys of an analyzed record, in the order of its dictionary
    literal. *)
Definition report_keys : list string :=
  ["search_category"; "title"; "company"; "location"; "url"; "match_score";
   "german_required"; "key_matches"; "missing_skills"; "recommendation"].

(** ** Worlds for concrete runs *)

(** The world in which the completion service raises. *)
Definition failing_oracle_env : Env :=
  fixed_env (λ _, Ok []) (λ _, Ok "Lead the strategy team.")
    (Raise (OtherError "APIConnectionError")).

(** The world in which no job page can be read. *)
Definition unreachable_env : Env :=
  fixed_env (λ _, Ok []) (λ _, Raise TimeoutException)
    (Ok (Some example_response)).

(** The world in which every job page has an empty description. *)
Definition empty_description_env : Env :=
  fixed_env (λ _, Ok []) (λ _, Ok EmptyString) (Ok (Some example_response)).

Definition example_url : option string :=
  Some "https://www.arbeitnow.com/jobs/1".

Definition listing (title url : string) : listing_element :=
  {| el_title := Some title; el_href := Some (Some url);
     el_company := Some "Acme GmbH"; el_location := Some "Berlin" |}.

(** Listings: two jobs on page 1 of [strategy], nothing on its page 2; on
    page 1 of [project] one of the two again and an element without a
    title, on its page 2 one more job. *)
Definition example_listings (url : string) : res (list listing_element) :=
  if String.eqb url
       "https://www.arbeitnow.com/?search=strategy&tags=&sort_by=newest&page=1"
  then Ok [listing "Strategy Lead" "https://www.arbeitnow.com/jobs/1";
           listing "Strategy Analyst" "https://www.arbeitnow.com/jobs/2"]
  else if String.eqb url
       "https://www.arbeitnow.com/?search=project&tags=&sort_by=newest&page=1"
  then Ok [listing "Strategy Lead" "https://www.arbeitnow.com/jobs/1";
           {| el_title := None; el_href := None;
              el_company := Some "Acme GmbH"; el_location := Some "Berlin" |}]
  else if String.eqb url
       "https://www.arbeitnow.com/?search=project&tags=&sort_by=newest&page=2"
  then Ok [listing "Project Manager" "https://www.arbeitnow.com/jobs/3"]
  else Ok [].

(** The world of a whole run: the listings above, a description on every
    job page and the example response to every request. *)
Definition pipeline_env : Env :=
  fixed_env example_listings (λ _, Ok "Lead the strategy team.")
    (Ok (Some example_response)).

(** The object [example_response] denotes. *)
Definition example_fields : pydict :=
  [("match_score", PInt 150);
   ("german_required", PStr "No");
   ("key_matches", PList [PStr "SQL"; PStr "Python"]);
   ("missing_skills", PList [PStr "German"]);
   ("recommendation", PStr "Apply")].

(** The record the analyzer builds for [example_job] from
    [example_response]. *)
Definition example_analysis : pydict :=
  [("search_category", PStr "strategy");
   ("title", PStr "Strategy Lead");
   ("company", PStr "Acme GmbH");
   ("location", PStr "Berlin");
   ("url", PStr "https://www.arbeitnow.com/jobs/1");
   ("match_score", PInt 150);
   ("german_required", PStr "No");
   ("key_matches", PStr "SQL; Python");
   ("missing_skills", PStr "German");
   ("recommendation", PStr "Apply")].

(** The fallback record for [example_job]. *)
Definition example_fallback : pydict :=
  [("search_category", PStr "strategy");
   ("title", PStr "Strategy Lead");
   ("company", PStr "Acme GmbH");
   ("location", PStr "Berlin");
   ("url", PStr "https://www.arbeitnow.com/jobs/1");
   ("match_score", PInt 0);
   ("german_required", PStr "No");
   ("key_matches", PStr "Analysis failed");
   ("missing_skills", PStr "Analysis failed");
   ("recommendation", PStr "Analysis failed - please review manually")].

(** A second job, and a harvest in which [example_job] comes twice. *)
Definition second_job : job :=
  <["search_category" := Some "project"]>
  (<["title" := Some "Project Manager"]>
  (<["company" := Some "Acme GmbH"]>
  (<["location" := Some "Berlin"]>
  (<["url" := Some "https://www.arbeitnow.com/jobs/3"]>
  (<["description" := None]> (∅ : job)))))).

Definition example_harvest : list job :=
  [example_job; second_job; example_job].

(** The whole run in [pipeline_env], phase by phase. *)
Definition run_start : St pipeline_env := initial_state pipeline_env tt.

Abbreviation run_harvest :=
  (harvest_categories pipeline_env example_analyzer
     (search_categories example_analyzer) [] run_start).

Abbreviation run_all_jobs :=
  (match fst run_harvest with Ok jobs => jobs | Raise _ => [] end).

Abbreviation run_unique_jobs :=
  (match remove_duplicates run_all_jobs with
   | Ok jobs => jobs
   | Raise _ => []
   end).

Abbreviation run_analysis :=
  (analyze_jobs pipeline_env example_analyzer run_unique_jobs []
     (snd run_harvest)).

Abbreviation run_analyzed_jobs :=
  (match fst run_analysis with Ok records => records | Raise _ => [] end).

(** ** Configuration and command line ([src/config.py], [main])

    The process environment is a finite map from names to values; the file
    system is asked whether a path exists and to create a directory;
    [int] is the conversion of a text to an integer.  All three are
    parameters. *)

Module Config.

(** [DEFAULT_SEARCH_CATEGORIES] *)
Definition DEFAULT_SEARCH_CATEGORIES : list string :=
  ["strategy"; "project"; "consultant"; "business"; "product"; "marketing"].

(** [s.split(',')] *)
Fixpoint split_comma (s : string) : list string :=
  match s with
  | EmptyString => [EmptyString]
  | String c s' =>
      if Ascii.eqb c ","
      then EmptyString :: split_comma s'
      else match split_comma s' with
           | part :: parts => String c part :: parts
           | [] => [String c EmptyString]
           end
  end.

(** What the configuration asks of the file system. *)
Record file_system : Type := {
  path_exists : string → bool;
  makedirs : string → res unit
}.

(** The attributes of a [Config] object. *)
Record t : Type := {
  openai_api_key : string;
  resume_path : string;
  search_categories : list string;
  base_url : string;
  max_retries : Z;
  max_pages : Z;
  output_dir : string;
  logs_dir : string
}.

(** [os.getenv(name, default)] *)
Definition getenv (environ : gmap string string) (name default : string)
    : string :=
  match environ !! name with
  | Some value => value
  | None => default
  end.

(** [Config.__init__] *)
Definition init (environ : gmap string string) (fs : file_system)
    (int : string → res Z) : res t :=
  match environ !! "OPENAI_API_KEY" with
  | None => Raise (ValueError "OPENAI_API_KEY environment variable is required")
  | Some key =>
      if PyStr.is_empty key
      then Raise (ValueError "OPENAI_API_KEY environment variable is required")
      else
        let resume := getenv environ "RESUME_PATH" "resume.txt" in
        if negb (path_exists fs resume)
        then Raise (OtherError "FileNotFoundError")
        else
          let categories :=
            split_comma (getenv environ "SEARCH_CATEGORIES" EmptyString) in
          let categories :=
            match categories with
            | [] => DEFAULT_SEARCH_CATEGORIES
            | [EmptyString] => DEFAULT_SEARCH_CATEGORIES
            | _ => categories
            end in
          let! pages := int (getenv environ "MAX_PAGES" "2") in
          let output := getenv environ "OUTPUT_DIR" "output" in
          let! _made := makedirs fs output in
          let logs := getenv environ "LOGS_DIR" "logs" in
          let! _made := makedirs fs logs in
          Ok {| openai_api_key := key;
                resume_path := resume;
                search_categories := categories;
                base_url := "https://www.arbeitnow.com";
                max_retries := 3;
                max_pages := pages;
                output_dir := output;
                logs_dir := logs |}
  end.

(** The values [parse_arguments] returns; an option that was not given is
    [None]. *)
Record arguments : Type := {
  arg_resume : option string;
  arg_categories : option string;
  arg_max_pages : option Z;
  arg_output_dir : option string
}.

(** [os.environ[name] = value] when the argument is true: given, and not
    the empty text. *)
Definition set_if_text (name : string) (arg : option string)
    (environ : gmap string string) : gmap string string :=
  match arg with
  | Some value =>
      if PyStr.is_empty value then environ else <[name := value]> environ
  | None => environ
  end.

(** The first step of [main]: arguments given on the command line are
    written to the environment. *)
Definition apply_arguments (args : arguments) (environ : gmap string string)
    : gmap string string :=
  let environ := set_if_text "RESUME_PATH" (arg_resume args) environ in
  let environ := set_if_text "SEARCH_CATEGORIES" (arg_categories args) environ in
  let environ :=
    match arg_max_pages args with
    | Some n => if n =? 0 then environ else <["MAX_PAGES" := pretty n]> environ
    | None => environ
    end in
  set_if_text "OUTPUT_DIR" (arg_output_dir args) environ.

End Config.

(** ** Further notions used by the statements *)

(** The job page fails [n] times from the world [w] on and is then read as
    [text]. *)
Fixpoint fails_then_reads (E : Env) (url : option string) (n : nat)
    (w : World E) (text : string) : Prop :=
  match n with
  | O => ∃ w', description_page E url w = (Ok text, w')
  | S n' =>
      ∃ e w', description_page E url w = (Raise e, w')
              ∧ fails_then_reads E url n' w' text
  end.

(** The dictionary a listing element with all its parts gives. *)
Definition basic_record (job_element : listing_element)
    (search_category : string) : option job :=
  match el_title job_element, el_href job_element, el_company job_element,
        el_location job_element with
  | Some title, Some url, Some company, Some location =>
      Some (<["search_category" := Some search_category]>
            (<["title" := Some (PyStr.strip title)]>
            (<["company" := Some (PyStr.strip company)]>
            (<["location" := Some (PyStr.strip location)]>
            (<["url" := url]>
            (<["description" := None]> (∅ : job)))))))
  | _, _, _, _ => None
  end.

(** One log entry for every listing element that lacks a part. *)
Definition malformed_entries (job_listings : list listing_element)
    : list log_entry :=
  flat_map
    (λ el, match basic_record el EmptyString with
           | Some _ => []
           | None => [LogBasicInfoError]
           end)
    job_listings.

(** A job dictionary that holds the five identity fields. *)
Definition has_identity (job_data : job) : Prop :=
  is_Some (job_data !! "search_category")
  ∧ is_Some (job_data !! "title")
  ∧ is_Some (job_data !! "company")
  ∧ is_Some (job_data !! "location")
  ∧ is_Some (job_data !! "url").

(** An analyzed record that carries the identity fields of a job. *)
Definition same_identity (job_data : job) (record : pydict) : Prop :=
  dict_get "search_category" record
    = of_field <$> (job_data !! "search_category")
  ∧ dict_get "title" record = of_field <$> (job_data !! "title")
  ∧ dict_get "company" record = of_field <$> (job_data !! "company")
  ∧ dict_get "location" record = of_field <$> (job_data !! "location")
  ∧ dict_get "url" record = of_field <$> (job_data !! "url").

(** A value that ['; '.join] rejects: not a string, not a dict, and, when
    a list, one with an item that is not a string. *)
Definition not_joinable (v : pyval) : Prop :=
  match v with
  | PStr _ | PDict _ => False
  | PList l => strings_of l = None
  | _ => True
  end.

(** The state after [entries] were written to the error log. *)
Definition logged {E : Env} (st : St E) (entries : list log_entry) : St E :=
  {| world := world st; fetched := fetched st; asked := asked st;
     error_log := error_log st ++ entries; files := files st;
     console := console st |}.

(** ** More worlds and inputs for concrete runs *)

(** What [remove_duplicates] leaves of [example_harvest]. *)
Abbreviation example_unique :=
  (match remove_duplicates example_harvest with
   | Ok jobs => jobs
   | Raise _ => []
   end).

(** A world that counts the page loads: the job page fails on the first
    [failures] loads and is read afterwards. *)
Definition flaky_env (failures : nat) : Env :=
  {| World := nat;
     listing_page := λ _ n, (Ok [], S n);
     description_page :=
       λ _ n, (if (n <? failures)%nat then Raise TimeoutException
               else Ok "Lead the strategy team.", S n);
     chat_completion := λ _ _ n, (Ok (Some example_response), n);
     json_loads := Json.loads;
     tables := no_tables |}.

(** The world in which no listings page loads. *)
Definition broken_listing_env : Env :=
  fixed_env (λ _, Raise TimeoutException)
    (λ _, Ok "Lead the strategy team.") (Ok (Some example_response)).

(** The listing elements of page 1 of [project] in [pipeline_env]. *)
Definition project_page : list listing_element :=
  [listing "Strategy Lead" "https://www.arbeitnow.com/jobs/1";
   {| el_title := None; el_href := None;
      el_company := Some "Acme GmbH"; el_location := Some "Berlin" |}].

(** Responses that parse but are not what the prompt asks for: an array,
    an object whose [key_matches] is a number, an object whose
    [key_matches] is a string. *)
Definition array_response : string := "[1, 2]".

Definition number_matches_response : string :=
  Json.object
    [Json.member "match_score" "80";
     Json.member "german_required" (PyStr.quoted "No");
     Json.member "key_matches" "5";
     Json.member "missing_skills" (Json.array []);
     Json.member "recommendation" (PyStr.quoted "Apply")].

Definition number_matches_fields : pydict :=
  [("match_score", PInt 80); ("german_required", PStr "No");
   ("key_matches", PInt 5); ("missing_skills", PList []);
   ("recommendation", PStr "Apply")].

Definition string_matches_response : string :=
  Json.object
    [Json.member "match_score" "80";
     Json.member "german_required" (PyStr.quoted "No");
     Json.member "key_matches" (PyStr.quoted "SQL");
     Json.member "missing_skills" (Json.array []);
     Json.member "recommendation" (PyStr.quoted "Apply")].

Definition string_matches_fields : pydict :=
  [("match_score", PInt 80); ("german_required", PStr "No");
   ("key_matches", PStr "SQL"); ("missing_skills", PList []);
   ("recommendation", PStr "Apply")].

(** An analyzer that is allowed no page. *)
Definition idle_analyzer : analyzer :=
  {| base_url := "https://www.arbeitnow.com";
     search_categories := ["strategy"; "project"];
     max_pages := 0;
     resume := "Product manager, ten years";
     filename := "output/Analyzed_Jobs_20240101_120000.csv" |}.

(** A process environment, a file system in which every path exists and
    every directory can be made, and a reader of unsigned decimal
    numbers. *)
Definition example_environ : gmap string string :=
  <["OPENAI_API_KEY" := "sk-test"]>
  (<["SEARCH_CATEGORIES" := "strategy, sales"]> ∅).

Definition example_fs : Config.file_system :=
  {| Config.path_exists := λ _, true; Config.makedirs := λ _, Ok tt |}.

Definition example_int (s : string) : res Z :=
  match Json.read_natural s with
  | Some (n, EmptyString) => Ok n
  | _ => Raise (ValueError "invalid literal for int()")
  end.

Definition example_config : Config.t :=
  {| Config.openai_api_key := "sk-test";
     Config.resume_path := "resume.txt";
     Config.search_categories := ["strategy"; " sales"];
     Config.base_url := "https://www.arbeitnow.com";
     Config.max_retries := 3;
     Config.max_pages := 2;
     Config.output_dir := "output";
     Config.logs_dir := "logs" |}.

Definition example_arguments : Config.arguments :=
  {| Config.arg_resume := None;
     Config.arg_categories := Some "data,ops";
     Config.arg_max_pages := Some 0;
     Config.arg_output_dir := None |}.

(** ** Facts about strings *)

Module PyStrFacts.
Import PyStr.

Lemma app_cons (c : ascii) (a b : string) :
  String c a +:+ b = String c (a +:+ b).
Proof. reflexivity. Qed.

Lemma app_nil (b : string) : EmptyString +:+ b = b.
Proof. reflexivity. Qed.

Lemma length_app (a b : string) :
  String.length (a +:+ b) = (String.length a + String.length b)%nat.
Proof.
  induction a as [|c a IH]; [done |].
  rewrite app_cons. simpl. by rewrite IH.
Qed.

Lemma app_assoc (a b c : string) : (a +:+ b) +:+ c = a +:+ (b +:+ c).
Proof.
  induction a as [|x a IH]; [done |].
  rewrite !app_cons. by rewrite IH.
Qed.

Lemma lstrip_blank_app (ws s : string) :
  is_blank ws = true → lstrip (ws +:+ s) = lstrip s.
Proof.
  induction ws as [|c ws IH]; [done |].
  rewrite app_cons. simpl.
  intros [Hc Hws]%andb_prop. rewrite Hc. by apply IH.
Qed.

Lemma rstrip_blank (ws : string) : is_blank ws = true → rstrip ws = EmptyString.
Proof.
  induction ws as [|c ws IH]; simpl; [done |].
  intros [Hc Hws]%andb_prop. rewrite (IH Hws), Hc. done.
Qed.

Lemma rstrip_app_blank (s ws : string) :
  is_blank ws = true → rstrip (s +:+ ws) = rstrip s.
Proof.
  intros Hws. induction s as [|c s IH].
  - by apply rstrip_blank.
  - rewrite app_cons. simpl. by rewrite IH.
Qed.

Lemma rstrip_keeps_last (s : string) (c : ascii) :
  is_space c = false →
  rstrip (s +:+ String c EmptyString) = s +:+ String c EmptyString.
Proof.
  intros Hc. induction s as [|a s IH].
  - rewrite app_nil. simpl. by rewrite Hc.
  - rewrite app_cons. simpl. rewrite IH.
    destruct s; [rewrite app_nil | rewrite app_cons]; simpl;
      by rewrite andb_false_r.
Qed.

Lemma startswith_app (p s : string) : startswith p (p +:+ s) = true.
Proof.
  induction p as [|c p IH]; [done |].
  rewrite app_cons. simpl. by rewrite Ascii.eqb_refl.
Qed.

Lemma drop_app (p s : string) : drop (String.length p) (p +:+ s) = s.
Proof.
  induction p as [|c p IH]; [by destruct s |].
  rewrite app_cons. simpl. done.
Qed.

Lemma take_app (s p : string) : take (String.length s) (s +:+ p) = s.
Proof.
  induction s as [|c s IH]; [done |].
  rewrite app_cons. simpl. by rewrite IH.
Qed.

Lemma endswith_app (s p : string) : endswith p (s +:+ p) = true.
Proof.
  unfold endswith. rewrite length_app.
  replace (String.length s + String.length p - String.length p)%nat
    with (String.length s) by lia.
  rewrite drop_app, String.eqb_refl, andb_true_r.
  apply Nat.leb_le. lia.
Qed.

Lemma drop_last_app (s p : string) :
  drop_last (String.length p) (s +:+ p) = s.
Proof.
  unfold drop_last. rewrite length_app.
  replace (String.length s + String.length p - String.length p)%nat
    with (String.length s) by lia.
  apply take_app.
Qed.

(** Stripping a text that begins and ends with a character that is not
    white space, and is surrounded by white space, leaves that text. *)
Lemma strip_fenced (ws1 ws2 inner : string) (c1 c2 : ascii) :
  is_space c1 = false → is_space c2 = false →
  is_blank ws1 = true → is_blank ws2 = true →
  strip (ws1 +:+ String c1 (inner +:+ String c2 EmptyString) +:+ ws2)
  = String c1 (inner +:+ String c2 EmptyString).
Proof.
  intros Hc1 Hc2 H1 H2. unfold strip.
  rewrite lstrip_blank_app by done.
  rewrite app_cons. simpl lstrip. rewrite Hc1.
  rewrite <- app_cons, rstrip_app_blank by done.
  rewrite <- app_cons. by apply rstrip_keeps_last.
Qed.

End PyStrFacts.

(** ** The match analyzer *)

Section AnalyzerFacts.

Variable E : Env.
Variable self : analyzer.

Import PyStr PyStrFacts.

Lemma app_empty_r (s : string) : s +:+ EmptyString = s.
Proof.
  induction s as [|c s IH]; [done |]. rewrite app_cons. by rewrite IH.
Qed.

Lemma tagged_fence_shape (body : string) :
  "```json" +:+ body +:+ "```"
  = String "`" (("``json" +:+ body +:+ "``") +:+ String "`" EmptyString).
Proof. rewrite !app_assoc. reflexivity. Qed.

(** The recovery step on a response in a tagged fence leaves the text
    between the fences, stripped. *)
Lemma clean_tagged_fence (body : string) :
  clean_response ("```json" +:+ body +:+ "```") = strip body.
Proof.
  unfold clean_response.
  assert (Hs : strip ("```json" +:+ body +:+ "```")
               = "```json" +:+ body +:+ "```").
  { rewrite tagged_fence_shape.
    pose proof (strip_fenced EmptyString EmptyString
                  ("``json" +:+ body +:+ "``") "`" "`") as H.
    rewrite app_nil, app_empty_r in H. by apply H. }
  rewrite Hs, startswith_app.
  change 7%nat with (String.length "```json"). rewrite drop_app.
  rewrite endswith_app.
  change 3%nat with (String.length "```"). by rewrite drop_last_app.
Qed.

Lemma strip_tagged_fence (ws1 ws2 body : string) :
  is_blank ws1 = true → is_blank ws2 = true →
  strip (ws1 +:+ ("```json" +:+ body +:+ "```") +:+ ws2)
  = "```json" +:+ body +:+ "```".
Proof.
  intros H1 H2. rewrite tagged_fence_shape.
  by apply strip_fenced.
Qed.

(** The [try] block once the title and the description are read: one
    request, then the interpretation of its content. *)
Lemma analyze_attempt_unfold (job_data : job) (title description : option string)
    (st : St E) :
  job_data !! "title" = Some title →
  job_data !! "description" = Some description →
  analyze_attempt E self job_data st
  = match chat E system_prompt
            (user_prompt title (resume self) description) st with
    | (Ok (Some text), st') =>
        (interpret_response E job_data (strip text), st')
    | (Ok None, st') => (Raise AttributeError, st')
    | (Raise e, st') => (Raise e, st')
    end.
Proof.
  intros Ht Hd. unfold analyze_attempt, bind, lift, job_item.
  rewrite Ht, Hd.
  destruct (chat E system_prompt _ st) as [[[text|]|e] st']; reflexivity.
Qed.

Lemma chat_world (system user : string) (st : St E) :
  fst (chat E system user st)
  = fst (chat_completion E system user (world st)).
Proof.
  unfold chat. by destruct (chat_completion E system user (world st)).
Qed.

Lemma create_fallback_analysis_ok (job_data : job)
    (category title company location url : option string) :
  job_data !! "search_category" = Some category →
  job_data !! "title" = Some title →
  job_data !! "company" = Some company →
  job_data !! "location" = Some location →
  job_data !! "url" = Some url →
  create_fallback_analysis job_data
  = Ok [("search_category", of_field category);
        ("title", of_field title);
        ("company", of_field company);
        ("location", of_field location);
        ("url", of_field url);
        ("match_score", PInt 0);
        ("german_required", PStr "No");
        ("key_matches", PStr "Analysis failed");
        ("missing_skills", PStr "Analysis failed");
        ("recommendation", PStr "Analysis failed - please review manually")].
Proof.
  intros Hc Ht Hco Hl Hu. unfold create_fallback_analysis, job_item.
  by rewrite Hc, Ht, Hco, Hl, Hu.
Qed.

(** A failed attempt ends in the handler. *)
Lemma analyze_with_gpt_failed (job_data : job) (title : option string)
    (st st' : St E) (e : exn) :
  job_data !! "title" = Some title →
  analyze_attempt E self job_data st = (Raise e, st') →
  analyze_with_gpt E self job_data st
  = (create_fallback_analysis job_data, st').
Proof.
  intros Ht Hfail. unfold analyze_with_gpt, try_except.
  rewrite Hfail. unfold bind, lift, job_item. rewrite Ht.
  by destruct (create_fallback_analysis job_data).
Qed.

Lemma analyze_with_gpt_succeeded (job_data : job) (st st' : St E)
    (r : pydict) :
  analyze_attempt E self job_data st = (Ok r, st') →
  analyze_with_gpt E self job_data st = (Ok r, st').
Proof.
  intros Hok. unfold analyze_with_gpt, try_except. by rewrite Hok.
Qed.

Lemma check_required_missing (fields : list string) (field : string)
    (result : pyval) :
  field ∈ fields → py_in field result = Ok false →
  ∃ e, check_required fields result = Raise e.
Proof.
  intros Hin Hmiss. induction fields as [|f fields IH]; [by inversion Hin |].
  simpl. unfold res_bind.
  destruct (py_in f result) as [[|]|e] eqn:Hf; [| by eauto | by eauto].
  apply IH. inversion Hin; subst; [congruence | done].
Qed.

Lemma check_required_dict (fields : list string) (d : pydict) :
  Forall (λ f, is_Some (dict_get f d)) fields →
  check_required fields (PDict d) = Ok tt.
Proof.
  induction 1 as [|f fields [v Hv] _ IH]; simpl; [done |].
  unfold dict_has. by rewrite Hv.
Qed.

Lemma strings_of_strs (ss : list string) : strings_of (map PStr ss) = Some ss.
Proof. induction ss as [|s ss IH]; simpl; [done | by rewrite IH]. Qed.

(** With the identity fields present the analyzer returns a record. *)
Lemma analyze_with_gpt_total (job_data : job)
    (category title company location url : option string) (st : St E) :
  job_data !! "search_category" = Some category →
  job_data !! "title" = Some title →
  job_data !! "company" = Some company →
  job_data !! "location" = Some location →
  job_data !! "url" = Some url →
  ∃ r st', analyze_with_gpt E self job_data st = (Ok r, st').
Proof.
  intros Hc Ht Hco Hl Hu.
  destruct (analyze_attempt E self job_data st) as [[r|e] st'] eqn:Hrun.
  - exists r, st'. by apply analyze_with_gpt_succeeded.
  - rewrite (analyze_with_gpt_failed _ _ _ _ _ Ht Hrun).
    rewrite (create_fallback_analysis_ok job_data _ _ _ _ _ Hc Ht Hco Hl Hu).
    by eauto.
Qed.

(** C1.  For a job whose identity fields are present, [analyze_with_gpt]
    never raises, and whenever its attempt fails it returns exactly the
    fallback record: score 0, German [No], the two [Analysis failed]
    texts, the manual-review recommendation, and the identity fields of
    the job.  The failures named by the specification are instances: the
    oracle raises, the response does not parse even after the fence
    recovery, a required field is missing. *)
Theorem analysis_failure_yields_fallback (job_data : job)
    (category title company location url : option string) (st : St E) :
  job_data !! "search_category" = Some category →
  job_data !! "title" = Some title →
  job_data !! "company" = Some company →
  job_data !! "location" = Some location →
  job_data !! "url" = Some url →
  let fallback :=
    [("search_category", of_field category);
     ("title", of_field title);
     ("company", of_field company);
     ("location", of_field location);
     ("url", of_field url);
     ("match_score", PInt 0);
     ("german_required", PStr "No");
     ("key_matches", PStr "Analysis failed");
     ("missing_skills", PStr "Analysis failed");
     ("recommendation", PStr "Analysis failed - please review manually")] in
  (∃ r st', analyze_with_gpt E self job_data st = (Ok r, st'))
  ∧ (∀ e st', analyze_attempt E self job_data st = (Raise e, st') →
       analyze_with_gpt E self job_data st = (Ok fallback, st'))
  ∧ (∀ description e w,
       job_data !! "description" = Some description →
       chat_completion E system_prompt
         (user_prompt title (resume self) description) (world st)
       = (Raise e, w) →
       fst (analyze_with_gpt E self job_data st) = Ok fallback)
  ∧ (∀ description text w,
       job_data !! "description" = Some description →
       chat_completion E system_prompt
         (user_prompt title (resume self) description) (world st)
       = (Ok (Some text), w) →
       json_loads E (strip text) = None →
       json_loads E (clean_response (strip text)) = None →
       fst (analyze_with_gpt E self job_data st) = Ok fallback)
  ∧ (∀ description text w result field,
       job_data !! "description" = Some description →
       chat_completion E system_prompt
         (user_prompt title (resume self) description) (world st)
       = (Ok (Some text), w) →
       parse_response E (strip text) = Ok result →
       field ∈ required_fields →
       py_in field result = Ok false →
       fst (analyze_with_gpt E self job_data st) = Ok fallback).
Proof.
  intros Hc Ht Hco Hl Hu fallback.
  pose proof (create_fallback_analysis_ok job_data _ _ _ _ _ Hc Ht Hco Hl Hu)
    as Hfb. fold fallback in Hfb.
  assert (Hfail : ∀ e st', analyze_attempt E self job_data st = (Raise e, st') →
            analyze_with_gpt E self job_data st = (Ok fallback, st')).
  { intros e st' Hr. rewrite (analyze_with_gpt_failed _ _ _ _ _ Ht Hr).
    by rewrite Hfb. }
  assert (Hvia : ∀ description (r : res pydict) st',
            job_data !! "description" = Some description →
            analyze_attempt E self job_data st = (r, st') →
            (∃ e, r = Raise e) →
            fst (analyze_with_gpt E self job_data st) = Ok fallback).
  { intros description r st' _ Hrun [e ->]. by rewrite (Hfail _ _ Hrun). }
  split; [| split; [done |]; split; [| split]].
  - destruct (analyze_attempt E self job_data st) as [[r|e] st'] eqn:Hrun.
    + exists r, st'. by apply analyze_with_gpt_succeeded.
    + exists fallback, st'. by apply (Hfail e st').
  - intros description e w Hd Hchat.
    pose proof (analyze_attempt_unfold job_data _ _ st Ht Hd) as Hrun.
    pose proof (chat_world system_prompt
                  (user_prompt title (resume self) description) st) as Hw.
    rewrite Hchat in Hw. simpl in Hw.
    destruct (chat E system_prompt _ st) as [r st'] eqn:Hc'.
    simpl in Hw. subst r.
    eapply Hvia; [done | exact Hrun | by eauto].
  - intros description text w Hd Hchat Hdirect Hclean.
    pose proof (analyze_attempt_unfold job_data _ _ st Ht Hd) as Hrun.
    pose proof (chat_world system_prompt
                  (user_prompt title (resume self) description) st) as Hw.
    rewrite Hchat in Hw. simpl in Hw.
    destruct (chat E system_prompt _ st) as [r st'] eqn:Hc'.
    simpl in Hw. subst r.
    eapply Hvia; [done | exact Hrun |].
    unfold interpret_response, parse_response. rewrite Hdirect, Hclean.
    by eauto.
  - intros description text w result field Hd Hchat Hparse Hin Hmiss.
    pose proof (analyze_attempt_unfold job_data _ _ st Ht Hd) as Hrun.
    pose proof (chat_world system_prompt
                  (user_prompt title (resume self) description) st) as Hw.
    rewrite Hchat in Hw. simpl in Hw.
    destruct (chat E system_prompt _ st) as [r st'] eqn:Hc'.
    simpl in Hw. subst r.
    eapply Hvia; [done | exact Hrun |].
    unfold interpret_response. rewrite Hparse. cbn [res_bind].
    destruct (check_required_missing _ _ _ Hin Hmiss) as [e ->].
    by eauto.
Qed.

(** C7.  When the response parses to an object that holds the five
    required fields, with [key_matches] and [missing_skills] arrays of
    strings, the analyzed record carries the two arrays joined with
    [; ] and the oracle's [match_score] and [german_required] unchanged
    (the job record holding its five identity fields and a
    description). *)
Theorem valid_response_is_joined (job_data : job)
    (category title company location url description : option string)
    (st : St E) (text : string) (w : World E) (d : pydict)
    (score german recommendation : pyval) (ks ms : list string) :
  job_data !! "search_category" = Some category →
  job_data !! "title" = Some title →
  job_data !! "company" = Some company →
  job_data !! "location" = Some location →
  job_data !! "url" = Some url →
  job_data !! "description" = Some description →
  chat_completion E system_prompt
    (user_prompt title (resume self) description) (world st)
  = (Ok (Some text), w) →
  parse_response E (strip text) = Ok (PDict d) →
  dict_get "match_score" d = Some score →
  dict_get "german_required" d = Some german →
  dict_get "key_matches" d = Some (PList (map PStr ks)) →
  dict_get "missing_skills" d = Some (PList (map PStr ms)) →
  dict_get "recommendation" d = Some recommendation →
  fst (analyze_with_gpt E self job_data st)
  = Ok [("search_category", of_field category);
        ("title", of_field title);
        ("company", of_field company);
        ("location", of_field location);
        ("url", of_field url);
        ("match_score", score);
        ("german_required", german);
        ("key_matches", PStr (join "; " ks));
        ("missing_skills", PStr (join "; " ms));
        ("recommendation", recommendation)].
Proof.
  intros Hc Ht Hco Hl Hu Hd Hchat Hparse Hs Hg Hk Hm Hr.
  pose proof (analyze_attempt_unfold job_data _ _ st Ht Hd) as Hrun.
  pose proof (chat_world system_prompt
                (user_prompt title (resume self) description) st) as Hw.
  rewrite Hchat in Hw. simpl in Hw.
  destruct (chat E system_prompt _ st) as [r st'] eqn:Hc'.
  simpl in Hw. subst r.
  assert (Hi : interpret_response E job_data (strip text)
               = Ok [("search_category", of_field category);
                     ("title", of_field title);
                     ("company", of_field company);
                     ("location", of_field location);
                     ("url", of_field url);
                     ("match_score", score);
                     ("german_required", german);
                     ("key_matches", PStr (join "; " ks));
                     ("missing_skills", PStr (join "; " ms));
                     ("recommendation", recommendation)]).
  { unfold interpret_response. rewrite Hparse. cbn [res_bind].
    rewrite check_required_dict.
    2:{ unfold required_fields. repeat constructor; by eauto. }
    unfold build_analyzed_job, job_item, py_subscript, dict_item.
    rewrite Hc, Ht, Hco, Hl, Hu, Hs, Hg, Hk, Hm, Hr. cbn [res_bind py_join].
    by rewrite !strings_of_strs. }
  rewrite Hi in Hrun.
  by rewrite (analyze_with_gpt_succeeded _ _ _ _ Hrun).
Qed.

(** The record returned depends on the world only through the content
    of the response. *)
Lemma analyze_result_by_content (job_data : job) (st1 st2 : St E)
    (text1 text2 : string) :
  (∀ system user,
     fst (chat_completion E system user (world st1)) = Ok (Some text1)) →
  (∀ system user,
     fst (chat_completion E system user (world st2)) = Ok (Some text2)) →
  interpret_response E job_data (strip text1)
  = interpret_response E job_data (strip text2) →
  fst (analyze_with_gpt E self job_data st1)
  = fst (analyze_with_gpt E self job_data st2).
Proof.
  intros H1 H2 Hsame.
  destruct (job_data !! "title") as [title|] eqn:Ht.
  2:{ unfold analyze_with_gpt, try_except, analyze_attempt, bind, lift,
        job_item. by rewrite Ht. }
  destruct (job_data !! "description") as [description|] eqn:Hd.
  2:{ unfold analyze_with_gpt, try_except, analyze_attempt, bind, lift,
        job_item. by rewrite Ht, Hd. }
  pose proof (analyze_attempt_unfold job_data _ _ st1 Ht Hd) as Hrun1.
  pose proof (analyze_attempt_unfold job_data _ _ st2 Ht Hd) as Hrun2.
  pose proof (chat_world system_prompt
                (user_prompt title (resume self) description) st1) as Hw1.
  pose proof (chat_world system_prompt
                (user_prompt title (resume self) description) st2) as Hw2.
  rewrite H1 in Hw1. rewrite H2 in Hw2.
  destruct (chat E system_prompt _ st1) as [r1 st1'].
  destruct (chat E system_prompt _ st2) as [r2 st2'].
  simpl in Hw1, Hw2. subst r1 r2. rewrite Hsame in Hrun1.
  destruct (interpret_response E job_data (strip text2)) as [r|e].
  - rewrite (analyze_with_gpt_succeeded _ _ _ _ Hrun1).
    by rewrite (analyze_with_gpt_succeeded _ _ _ _ Hrun2).
  - rewrite (analyze_with_gpt_failed _ _ _ _ _ Ht Hrun1).
    by rewrite (analyze_with_gpt_failed _ _ _ _ _ Ht Hrun2).
Qed.

(** C8.  For a response that is a valid JSON object between an
    opening fence with the [json] tag and a closing fence, so that the
    direct parse fails, the recovery step leaves the text between the
    fences, the second parse succeeds, and the analysis is the one the
    bare object would have given. *)
Theorem tagged_fence_is_recovered (job_data : job) (ws1 ws2 body : string)
    (d : pydict) :
  is_blank ws1 = true → is_blank ws2 = true →
  let fenced := ws1 +:+ ("```json" +:+ body +:+ "```") +:+ ws2 in
  json_loads E (strip fenced) = None →
  json_loads E (strip body) = Some (PDict d) →
  clean_response (strip fenced) = strip body
  ∧ parse_response E (strip fenced) = Ok (PDict d)
  ∧ interpret_response E job_data (strip fenced)
    = interpret_response E job_data (strip body)
  ∧ ∀ st_fenced st_bare : St E,
      (∀ system user,
         fst (chat_completion E system user (world st_fenced))
         = Ok (Some fenced)) →
      (∀ system user,
         fst (chat_completion E system user (world st_bare))
         = Ok (Some body)) →
      fst (analyze_with_gpt E self job_data st_fenced)
      = fst (analyze_with_gpt E self job_data st_bare).
Proof.
  intros H1 H2 fenced Hdirect Hbare.
  assert (Hstrip : strip fenced = "```json" +:+ body +:+ "```")
    by (by apply strip_tagged_fence).
  assert (Hclean : clean_response (strip fenced) = strip body)
    by (rewrite Hstrip; apply clean_tagged_fence).
  assert (Hparse : parse_response E (strip fenced) = Ok (PDict d)).
  { unfold parse_response. by rewrite Hdirect, Hclean, Hbare. }
  assert (Hsame : interpret_response E job_data (strip fenced)
                  = interpret_response E job_data (strip body)).
  { unfold interpret_response. rewrite Hparse.
    unfold parse_response. by rewrite Hbare. }
  repeat split; try done.
  intros st_fenced st_bare Hf Hb.
  by apply (analyze_result_by_content job_data _ _ fenced body).
Qed.

(** Where the score of a returned record comes from: it is 0, or the
    value under [match_score] of a parsed response of the oracle.  The
    record has the ten keys of the report. *)
Lemma analyze_with_gpt_score (job_data : job) (st st' : St E) (r : pydict) :
  analyze_with_gpt E self job_data st = (Ok r, st') →
  map fst r = ["search_category"; "title"; "company"; "location"; "url";
               "match_score"; "german_required"; "key_matches";
               "missing_skills"; "recommendation"]
  ∧ (dict_get "match_score" r = Some (PInt 0)
     ∨ ∃ system user w w' text result v,
         chat_completion E system user w = (Ok (Some text), w')
         ∧ parse_response E (strip text) = Ok result
         ∧ py_subscript result "match_score" = Ok v
         ∧ dict_get "match_score" r = Some v).
Proof.
  unfold analyze_with_gpt, try_except.
  destruct (analyze_attempt E self job_data st) as [[r0|e] st0] eqn:Hrun.
  - intros [= <- <-].
    unfold analyze_attempt, bind, lift, job_item in Hrun.
    destruct (job_data !! "title") as [title|]; [| done].
    destruct (job_data !! "description") as [description|]; [| done].
    unfold chat in Hrun.
    destruct (chat_completion E system_prompt _ (world st))
      as [[[text|]|e] w'] eqn:Hchat; [| done | done].
    unfold raise in Hrun.
    destruct (interpret_response E job_data (strip text)) as [r1|e] eqn:Hi;
      [| done].
    injection Hrun as <- _.
    unfold interpret_response in Hi.
    destruct (parse_response E (strip text)) as [result|e] eqn:Hparse;
      [| done].
    cbn [res_bind] in Hi.
    destruct (check_required required_fields result); [| done].
    cbn [res_bind] in Hi. unfold build_analyzed_job in Hi.
    repeat match type of Hi with
           | res_bind ?x _ = _ =>
               let H := fresh "Hx" in
               destruct x eqn:H; cbn [res_bind] in Hi; [| done]
           end.
    injection Hi as <-. split; [done |]. right.
    by eexists _, _, _, _, _, _, _.
  - unfold bind, lift.
    destruct (job_item "title" job_data); [| done].
    unfold create_fallback_analysis.
    repeat match goal with
           | |- context [res_bind ?x _] =>
               destruct x; cbn [res_bind]; [| done]
           end.
    intros [= <- <-]. split; [done |]. by left.
Qed.

(** The same with the request named: a score other than the fallback's is
    the value under [match_score] of the response the oracle gave, in the
    world of this call, to the request built from the title and the
    description of this job. *)
Lemma analyze_with_gpt_score_of_request (job_data : job) (st st' : St E)
    (r : pydict) :
  analyze_with_gpt E self job_data st = (Ok r, st') →
  dict_get "match_score" r = Some (PInt 0)
  ∨ ∃ title description text w' result v,
      job_data !! "title" = Some title
      ∧ job_data !! "description" = Some description
      ∧ chat_completion E system_prompt
          (user_prompt title (resume self) description) (world st)
        = (Ok (Some text), w')
      ∧ parse_response E (strip text) = Ok result
      ∧ py_subscript result "match_score" = Ok v
      ∧ dict_get "match_score" r = Some v.
Proof.
  unfold analyze_with_gpt, try_except.
  destruct (analyze_attempt E self job_data st) as [[r0|e] st0] eqn:Hrun.
  - intros [= <- <-].
    unfold analyze_attempt, bind, lift, job_item in Hrun.
    destruct (job_data !! "title") as [title|] eqn:Ht; [| done].
    destruct (job_data !! "description") as [description|] eqn:Hd; [| done].
    unfold chat in Hrun.
    destruct (chat_completion E system_prompt _ (world st))
      as [[[text|]|e] w'] eqn:Hchat; [| done | done].
    unfold raise in Hrun.
    destruct (interpret_response E job_data (strip text)) as [r1|e] eqn:Hi;
      [| done].
    injection Hrun as <- _.
    unfold interpret_response in Hi.
    destruct (parse_response E (strip text)) as [result|e] eqn:Hparse;
      [| done].
    cbn [res_bind] in Hi.
    destruct (check_required required_fields result); [| done].
    cbn [res_bind] in Hi. unfold build_analyzed_job in Hi.
    repeat match type of Hi with
           | res_bind ?x _ = _ =>
               let H := fresh "Hx" in
               destruct x eqn:H; cbn [res_bind] in Hi; [| done]
           end.
    injection Hi as <-. right.
    exists title, description, text, w', result. by eexists.
  - unfold bind, lift.
    destruct (job_item "title" job_data); [| done].
    unfold create_fallback_analysis.
    repeat match goal with
           | |- context [res_bind ?x _] =>
               destruct x; cbn [res_bind]; [| done]
           end.
    intros [= <- <-]. by left.
Qed.

End AnalyzerFacts.

(** ** The description fetcher *)

Section FetcherFacts.

Variable E : Env.

Lemma open_description_fetched (url : option string) (st : St E) :
  ∃ r w, description_page E url (world st) = (r, w)
         ∧ open_description E url st
           = (r, {| world := w; fetched := fetched st ++ [url];
                    asked := asked st; error_log := error_log st;
                    files := files st; console := console st |}).
Proof.
  unfold open_description.
  destruct (description_page E url (world st)) as [r w]. by eauto.
Qed.

(** With every attempt failing, the loop over the last [n] attempts of
    [range(max_retries)] opens the page [n] times, logs once and returns
    the sentinel. *)
Lemma attempt_loop_all_fail (url : option string) (max_retries : Z) (n : nat) :
  always_fails E url →
  ∀ (k : Z) (st : St E),
    k + Z.of_nat (S n) = max_retries →
    ∃ st',
      attempt_loop E url max_retries (seqZ k (Z.of_nat (S n))) st
      = (Ok (Some (failed_description)), st')
      ∧ fetched st' = fetched st ++ replicate (S n) url
      ∧ error_log st' = error_log st ++ [LogDescriptionFailed url]
      ∧ asked st' = asked st.
Proof.
  intros Hfail. induction n as [|n IH]; intros k st Hk.
  - change (seqZ k (Z.of_nat 1)) with [k]. simpl.
    unfold bind, try_except.
    destruct (open_description_fetched url st) as (r & w & Hpage & ->).
    destruct (Hfail (world st)) as (e & w' & Hw). rewrite Hw in Hpage.
    injection Hpage as <- <-.
    replace (k =? max_retries - 1) with true
      by (symmetry; apply Z.eqb_eq; lia).
    unfold log_error, ret. simpl. by eauto.
  - rewrite seqZ_cons by lia.
    replace (Z.pred (Z.of_nat (S (S n)))) with (Z.of_nat (S n)) by lia.
    cbn [attempt_loop]. unfold bind at 1. unfold try_except, bind at 1.
    destruct (open_description_fetched url st) as (r & w & Hpage & ->).
    destruct (Hfail (world st)) as (e & w' & Hw). rewrite Hw in Hpage.
    injection Hpage as <- <-.
    replace (k =? max_retries - 1) with false
      by (symmetry; apply Z.eqb_neq; lia).
    unfold ret at 1.
    edestruct (IH (Z.succ k)) as (st' & -> & Hf & Hl & Ha); [lia |].
    exists st'. split; [done |]. rewrite Hf, Hl, Ha. simpl.
    by rewrite <- app_assoc.
Qed.

(** With at least one attempt to make, the loop returns a string: a text
    read from the page or the sentinel. *)
Lemma attempt_loop_returns_str (url : option string) (max_retries : Z)
    (n : nat) :
  ∀ (k : Z) (st : St E),
    k + Z.of_nat (S n) = max_retries →
    ∃ s st',
      attempt_loop E url max_retries (seqZ k (Z.of_nat (S n))) st
      = (Ok (Some s), st')
      ∧ (s = failed_description
         ∨ ∃ w w', description_page E url w = (Ok s, w'))
      ∧ asked st' = asked st.
Proof.
  induction n as [|n IH]; intros k st Hk.
  - change (seqZ k (Z.of_nat 1)) with [k]. simpl.
    unfold bind, try_except.
    destruct (open_description_fetched url st) as (r & w & Hpage & ->).
    destruct r as [s|e].
    + unfold ret. simpl. exists s. eexists. split; [reflexivity |]. simpl. by eauto.
    + replace (k =? max_retries - 1) with true
        by (symmetry; apply Z.eqb_eq; lia).
      unfold log_error, ret. simpl.
      exists failed_description. eexists. split; [reflexivity |]. simpl.
      by eauto.
  - rewrite seqZ_cons by lia.
    replace (Z.pred (Z.of_nat (S (S n)))) with (Z.of_nat (S n)) by lia.
    cbn [attempt_loop]. unfold bind at 1. unfold try_except, bind at 1.
    destruct (open_description_fetched url st) as (r & w & Hpage & ->).
    destruct r as [s|e].
    + unfold ret. simpl. exists s. eexists. split; [reflexivity |]. simpl. by eauto.
    + replace (k =? max_retries - 1) with false
        by (symmetry; apply Z.eqb_neq; lia).
      unfold ret at 1.
      edestruct (IH (Z.succ k)) as (s & st' & -> & Hs & Ha); [lia |].
      by eauto.
Qed.

(** C2.  With [max_retries >= 1] and every attempt failing,
    [extract_job_description] opens the page exactly [max_retries] times
    and returns the sentinel [Failed to fetch description]; it does not
    raise. *)
Theorem exhausted_fetch_returns_sentinel (url : option string)
    (max_retries : Z) (st : St E) :
  1 ≤ max_retries →
  always_fails E url →
  ∃ st',
    extract_job_description E url max_retries st
    = (Ok (Some "Failed to fetch description"), st')
    ∧ fetched st' = fetched st ++ replicate (Z.to_nat max_retries) url
    ∧ error_log st' = error_log st ++ [LogDescriptionFailed url].
Proof.
  intros Hpos Hfail. unfold extract_job_description.
  destruct (Z.to_nat max_retries) as [|n] eqn:Hn; [lia |].
  replace (seqZ 0 max_retries) with (seqZ 0 (Z.of_nat (S n)))
      by (f_equal; lia).
  destruct (attempt_loop_all_fail url max_retries n Hfail 0 st)
    as (st' & Hrun & Hf & Hl & _); [lia |].
  exists st'. repeat split; assumption.
Qed.

(** C10.  With [max_retries <= 0] the loop body never runs and the
    result is [None], the state untouched; with [max_retries >= 1] the
    result is a string, a text read from the page or the sentinel.  When
    every attempt fails, the result is false for the orchestrator's test
    exactly when it is [None], that is exactly when
    [max_retries <= 0]. *)
Theorem no_attempt_returns_none (url : option string) (max_retries : Z)
    (st : St E) :
  (max_retries ≤ 0 →
   extract_job_description E url max_retries st = (Ok None, st))
  ∧ (1 ≤ max_retries →
     ∃ s st',
       extract_job_description E url max_retries st = (Ok (Some s), st')
       ∧ (s = "Failed to fetch description"
          ∨ ∃ w w', description_page E url w = (Ok s, w')))
  ∧ (always_fails E url →
     ∃ r st',
       extract_job_description E url max_retries st = (Ok r, st')
       ∧ (truthy r = false ↔ r = None)
       ∧ (r = None ↔ max_retries ≤ 0)).
Proof.
  assert (Hnone : max_retries ≤ 0 →
            extract_job_description E url max_retries st = (Ok None, st)).
  { intros Hle. unfold extract_job_description.
    by rewrite seqZ_nil by lia. }
  split; [done | split].
  - intros Hpos. unfold extract_job_description.
    destruct (Z.to_nat max_retries) as [|n] eqn:Hn; [lia |].
    replace (seqZ 0 max_retries) with (seqZ 0 (Z.of_nat (S n)))
      by (f_equal; lia).
    destruct (attempt_loop_returns_str url max_retries n 0 st)
      as (s & st' & Hrun & Hs & _); [lia |].
    exists s, st'. split; assumption.
  - intros Hfail. destruct (Z_le_gt_dec max_retries 0) as [Hle|Hgt].
    + exists None, st. split; [by apply Hnone |]. by split.
    + unfold extract_job_description.
      destruct (Z.to_nat max_retries) as [|n] eqn:Hn; [lia |].
      replace (seqZ 0 max_retries) with (seqZ 0 (Z.of_nat (S n)))
      by (f_equal; lia).
      destruct (attempt_loop_all_fail url max_retries n Hfail 0 st)
        as (st' & Hrun & _); [lia |].
      exists (Some failed_description), st'. split; [done |].
      split; (split; [done | intros; lia || done]).
Qed.

End FetcherFacts.

(** ** The deduplicator *)

Section DeduplicatorFacts.

Implicit Types (jobs : list job) (seen : gset (option string)).

Lemma remove_duplicates_loop_keep_new jobs :
  Forall has_url jobs →
  ∀ unique_jobs seen,
    remove_duplicates_loop jobs unique_jobs seen
    = Ok (unique_jobs ++ keep_new seen jobs).
Proof.
  induction 1 as [|job_data jobs [url Hurl] _ IH]; intros unique_jobs seen.
  - simpl. by rewrite app_nil_r.
  - simpl. unfold job_item. rewrite Hurl. simpl.
    destruct (decide (url ∈ seen)); [by apply IH |].
    rewrite IH. by rewrite <- app_assoc.
Qed.

Lemma keep_new_sublist jobs : ∀ seen, sublist (keep_new seen jobs) jobs.
Proof.
  induction jobs as [|job_data jobs IH]; intros seen; simpl; [constructor |].
  destruct (job_data !! "url") as [url|]; [| apply sublist_nil_l].
  destruct (decide (url ∈ seen)).
  - apply sublist_cons, IH.
  - apply sublist_skip, IH.
Qed.

Lemma keep_new_fresh jobs :
  ∀ seen job_data,
    job_data ∈ keep_new seen jobs →
    ∃ url, job_data !! "url" = Some url ∧ url ∉ seen.
Proof.
  induction jobs as [|j jobs IH]; intros seen job_data; simpl.
  - by intros ?%elem_of_nil.
  - destruct (j !! "url") as [url|] eqn:Hurl; [| by intros ?%elem_of_nil].
    destruct (decide (url ∈ seen)) as [|Hnew]; [by apply IH |].
    intros [->|Hin]%elem_of_cons; [by eauto |].
    destruct (IH _ _ Hin) as (url' & Hurl' & Hnot).
    exists url'. split; [done |]. set_solver.
Qed.

Lemma keep_new_NoDup jobs :
  ∀ seen, NoDup ((λ j : job, j !! "url") <$> keep_new seen jobs).
Proof.
  induction jobs as [|j jobs IH]; intros seen; simpl; [constructor |].
  destruct (j !! "url") as [url|] eqn:Hurl; [| constructor].
  destruct (decide (url ∈ seen)) as [|Hnew]; [by apply IH |].
  rewrite fmap_cons. constructor; [| by apply IH].
  rewrite Hurl. intros (j' & Heq & Hin)%list_elem_of_fmap.
  destruct (keep_new_fresh _ _ _ Hin) as (url' & Hurl' & Hnot).
  rewrite Hurl' in Heq. injection Heq as ->. set_solver.
Qed.

Lemma keep_new_split l1 :
  Forall has_url l1 →
  ∀ seen job_data l2 url,
    job_data !! "url" = Some url →
    url ∉ seen →
    Some url ∉ (λ j : job, j !! "url") <$> l1 →
    ∃ seen',
      keep_new seen (l1 ++ job_data :: l2)
      = keep_new seen l1 ++ job_data :: keep_new seen' l2.
Proof.
  induction 1 as [|j l1 [u Hu] _ IH]; intros seen job_data l2 url Hurl Hnew Hl1.
  - simpl. rewrite Hurl. rewrite decide_False by done. by eauto.
  - rewrite fmap_cons, Hu in Hl1.
    apply not_elem_of_cons in Hl1 as [Hne Hl1].
    simpl. rewrite Hu.
    destruct (decide (u ∈ seen)).
    + by apply (IH seen job_data l2 url).
    + destruct (IH ({[u]} ∪ seen) job_data l2 url) as [seen' Hsplit];
        [done | set_solver | done |].
      rewrite Hsplit. by eauto.
Qed.

(** C5.  On job records (each holding a URL), [remove_duplicates] never
    fails; its result is a subsequence of the input, so no longer than
    it, in the same relative order and with the records unmodified; no
    two of its records have the same URL; and every first occurrence of
    a URL is kept at its place: what precedes it in the result comes
    from what precedes it in the input, and likewise after it. *)
Theorem dedupe_keeps_first_occurrences jobs :
  Forall has_url jobs →
  ∃ unique_jobs,
    remove_duplicates jobs = Ok unique_jobs
    ∧ (length unique_jobs ≤ length jobs)%nat
    ∧ NoDup ((λ j : job, j !! "url") <$> unique_jobs)
    ∧ sublist unique_jobs jobs
    ∧ ∀ l1 job_data l2,
        jobs = l1 ++ job_data :: l2 →
        job_data !! "url" ∉ (λ j : job, j !! "url") <$> l1 →
        ∃ u1 u2,
          unique_jobs = u1 ++ job_data :: u2
          ∧ sublist u1 l1 ∧ sublist u2 l2.
Proof.
  intros Hjobs. exists (keep_new ∅ jobs).
  split; [| split; [| split; [| split]]].
  - unfold remove_duplicates.
    by rewrite remove_duplicates_loop_keep_new.
  - apply sublist_length, keep_new_sublist.
  - apply keep_new_NoDup.
  - apply keep_new_sublist.
  - intros l1 job_data l2 -> Hfirst.
    apply Forall_app in Hjobs as [Hl1 Hrest].
    apply Forall_cons in Hrest as [[url Hurl] _].
    rewrite Hurl in Hfirst.
    destruct (keep_new_split l1 Hl1 ∅ job_data l2 url) as [seen' Hsplit];
      [done | set_solver | done |].
    rewrite Hsplit.
    exists (keep_new ∅ l1), (keep_new seen' l2).
    split; [done |]. split; apply keep_new_sublist.
Qed.

End DeduplicatorFacts.

(** ** What a computation leaves untouched *)

Section MonadFacts.

Context {E : Env} {B : Type} (proj : St E → B).

Lemma preserves_ret {A} (a : A) : preserves proj (ret a).
Proof. by intros st r st' [= _ <-]. Qed.

Lemma preserves_raise {A} (e : exn) : preserves proj (@raise E A e).
Proof. by intros st r st' [= _ <-]. Qed.

Lemma preserves_lift {A} (r : res A) : preserves proj (lift r).
Proof. by intros st r' st' [= _ <-]. Qed.

Lemma preserves_bind {A C} (m : M E A) (k : A → M E C) :
  preserves proj m → (∀ a, preserves proj (k a)) →
  preserves proj (bind m k).
Proof.
  intros Hm Hk st r st'. unfold bind.
  destruct (m st) as [[a|e] st1] eqn:Hrun.
  - intros Hrun'. rewrite (Hk _ _ _ _ Hrun'). by eapply Hm.
  - intros [= _ <-]. by eapply Hm.
Qed.

Lemma preserves_try_except {A} (m : M E A) (h : exn → M E A) :
  preserves proj m → (∀ e, preserves proj (h e)) →
  preserves proj (try_except m h).
Proof.
  intros Hm Hh st r st'. unfold try_except.
  destruct (m st) as [[a|e] st1] eqn:Hrun.
  - intros [= _ <-]. by eapply Hm.
  - intros Hrun'. rewrite (Hh _ _ _ _ Hrun'). by eapply Hm.
Qed.

End MonadFacts.

(** ** The listing harvester and the page loop *)

Section HarvesterFacts.

Variable E : Env.
Variable self : analyzer.






End HarvesterFacts.

(** ** The orchestrator: the analysis loop *)

Section OrchestratorFacts.

Variable E : Env.
Variable self : analyzer.

Lemma open_description_preserves {B} (proj : St E → B) (url : option string) :
  (∀ st w f, proj {| world := w; fetched := f; asked := asked st;
                     error_log := error_log st; files := files st;
                     console := console st |} = proj st) →
  preserves proj (open_description E url).
Proof.
  intros Hproj st r st'. unfold open_description.
  destruct (description_page E url (world st)) as [r0 w].
  intros [= _ <-]. apply Hproj.
Qed.

Lemma log_error_preserves {B} (proj : St E → B) (entry : log_entry) :
  (∀ st l, proj {| world := world st; fetched := fetched st;
                   asked := asked st; error_log := l; files := files st;
                   console := console st |} = proj st) →
  preserves proj (log_error E entry).
Proof. intros Hproj st r st' [= _ <-]. apply Hproj. Qed.

Lemma attempt_loop_preserves {B} (proj : St E → B) (url : option string)
    (max_retries : Z) (attempts : list Z) :
  (∀ st w f l, proj {| world := w; fetched := f; asked := asked st;
                       error_log := l; files := files st;
                       console := console st |} = proj st) →
  preserves proj (attempt_loop E url max_retries attempts).
Proof.
  intros Hproj. induction attempts as [|attempt rest IH]; simpl.
  - apply preserves_ret.
  - apply preserves_bind.
    + apply preserves_try_except.
      * apply preserves_bind; [| intros; apply preserves_ret].
        apply open_description_preserves. intros st w f.
        rewrite <- (Hproj st w f (error_log st)). done.
      * intros e. destruct (attempt =? max_retries - 1).
        -- apply preserves_bind; [| intros; apply preserves_ret].
           apply log_error_preserves. intros st l.
           rewrite <- (Hproj st (world st) (fetched st) l). done.
        -- apply preserves_ret.
    + intros [value|]; [apply preserves_ret | apply IH].
Qed.

(** The fetcher sends nothing to the oracle, writes no file and prints
    no report. *)
Lemma extract_job_description_quiet (url : option string) (max_retries : Z)
    (st st' : St E) (r : res (option string)) :
  extract_job_description E url max_retries st = (r, st') →
  asked st' = asked st ∧ files st' = files st ∧ console st' = console st.
Proof.
  intros Hrun. unfold extract_job_description in Hrun.
  split; [| split].
  - by apply (attempt_loop_preserves asked _ _ _ (λ _ _ _ _, eq_refl) _ _ _ Hrun).
  - by apply (attempt_loop_preserves files _ _ _ (λ _ _ _ _, eq_refl) _ _ _ Hrun).
  - by apply (attempt_loop_preserves console _ _ _ (λ _ _ _ _, eq_refl) _ _ _ Hrun).
Qed.

(** C4, amended.  For a job with its identity fields, a fetch that
    returns the failure sentinel, or any other non-empty text, passes the
    job to the analyzer and adds a row; a fetch that returns nothing at
    all or the empty text skips the job before analysis, the oracle not
    being asked. *)
Theorem falsy_description_skips_job (job_data : job)
    (category title company location url description : option string)
    (analyzed_jobs : list pydict) (st st1 : St E) :
  job_data !! "search_category" = Some category →
  job_data !! "title" = Some title →
  job_data !! "company" = Some company →
  job_data !! "location" = Some location →
  job_data !! "url" = Some url →
  extract_job_description E url 3 st = (Ok description, st1) →
  truthy (Some "Failed to fetch description") = true
  ∧ (truthy description = true →
     ∃ r st2,
       analyze_with_gpt E self (<["description" := description]> job_data) st1
       = (Ok r, st2)
       ∧ process_job E self job_data analyzed_jobs st
         = (Ok (analyzed_jobs ++ [r]), st2))
  ∧ (truthy description = false →
     process_job E self job_data analyzed_jobs st = (Ok analyzed_jobs, st1)
     ∧ asked st1 = asked st).
Proof.
  intros Hc Ht Hco Hl Hu Hfetch.
  split; [done |]. split.
  - intros Htrue.
    destruct (analyze_with_gpt_total E self
                (<["description" := description]> job_data)
                category title company location url st1)
      as (r & st2 & Hrun); try by rewrite lookup_insert_ne.
    exists r, st2. split; [done |].
    destruct (analyze_with_gpt_score E self _ _ _ _ Hrun) as [Hkeys _].
    unfold process_job, try_except, bind, lift, job_item.
    rewrite Ht, Hu, Hfetch, Htrue. simpl. rewrite Hrun.
    by destruct r.
  - intros Hfalse. split.
    + unfold process_job, try_except, bind, lift, job_item.
      by rewrite Ht, Hu, Hfetch, Hfalse.
    + by apply (extract_job_description_quiet _ _ _ _ _ Hfetch).
Qed.

End OrchestratorFacts.

(** ** The scores handed to the report *)

Section ScoreFacts.

Variable E : Env.
Variable self : analyzer.

(** What one turn of the analysis loop did when it returns: it left the
    records as they were, or it fetched the description of its job, ran
    the analyzer on the job with that description and added the record
    returned. *)
Lemma process_job_provenance (job_data : job) (analyzed_jobs out : list pydict)
    (st st' : St E) :
  process_job E self job_data analyzed_jobs st = (Ok out, st') →
  out = analyzed_jobs
  ∨ ∃ url description st_f r,
      job_data !! "url" = Some url
      ∧ extract_job_description E url 3 st = (Ok description, st_f)
      ∧ analyze_with_gpt E self (<["description" := description]> job_data)
          st_f
        = (Ok r, st')
      ∧ out = analyzed_jobs ++ [r].
Proof.
  unfold process_job, try_except, bind, lift, job_item.
  destruct (job_data !! "title") as [title|]; [| done].
  destruct (job_data !! "url") as [url|] eqn:Hu;
    [| by intros [= <- _]; left].
  destruct (extract_job_description E url 3 st) as [[description|e] st1]
    eqn:Hfetch; [| by intros [= <- _]; left].
  destruct (negb (truthy description)); [by intros [= <- _]; left |].
  destruct (analyze_with_gpt E self _ st1) as [[r|e] st2] eqn:Hrun;
    [| by intros [= <- _]; left].
  destruct r as [|x r]; intros [= <- <-]; [by left |].
  right. by exists url, description, st1, (x :: r).
Qed.

(** Every record the loop adds was added by the turn of one job of the
    list, in the state the loop had reached after the jobs before it. *)
Lemma analyze_jobs_provenance (unique_jobs : list job) :
  ∀ (analyzed_jobs out : list pydict) (st st' : St E),
    analyze_jobs E self unique_jobs analyzed_jobs st = (Ok out, st') →
    ∃ added,
      out = analyzed_jobs ++ added
      ∧ ∀ (i : nat) (r : pydict),
          added !! i = Some r →
          ∃ (done rest : list job) (job_data : job) (st_j st_f st_a : St E)
            (url description : option string),
            unique_jobs = done ++ job_data :: rest
            ∧ analyze_jobs E self done analyzed_jobs st
              = (Ok (analyzed_jobs ++ take i added), st_j)
            ∧ job_data !! "url" = Some url
            ∧ extract_job_description E url 3 st_j = (Ok description, st_f)
            ∧ analyze_with_gpt E self
                (<["description" := description]> job_data) st_f
              = (Ok r, st_a).
Proof.
  induction unique_jobs as [|job_data rest IH];
    intros analyzed_jobs out st st'; simpl.
  - intros [= <- <-]. exists []. split; [by rewrite app_nil_r |].
    intros i r Hi. by rewrite lookup_nil in Hi.
  - unfold bind at 1.
    destruct (process_job E self job_data analyzed_jobs st)
      as [[mid|e] st1] eqn:Hstep; [| done].
    intros Hrest.
    destruct (IH _ _ _ _ Hrest) as (added' & -> & Hadded').
    destruct (process_job_provenance _ _ _ _ _ Hstep)
      as [->|(url & description & st_f & r0 & Hu & Hfetch & Hrun & ->)].
    + exists added'. split; [done |].
      intros i r Hi.
      destruct (Hadded' i r Hi)
        as (done & rest' & j & st_j & st_f & st_a & url & description
            & -> & Hdone & Hrow).
      exists (job_data :: done), rest', j, st_j, st_f, st_a, url, description.
      split; [done |]. split; [| done].
      simpl. unfold bind at 1. by rewrite Hstep.
    + exists (r0 :: added'). split; [by rewrite <- app_assoc |].
      intros [|i] r Hi.
      * injection Hi as <-.
        exists [], rest, job_data, st, st_f, st1, url, description.
        split; [done |]. split; [by simpl; rewrite app_nil_r |]. done.
      * destruct (Hadded' i r Hi)
          as (done & rest' & j & st_j & st_f' & st_a & url' & description'
              & -> & Hdone & Hrow).
        exists (job_data :: done), rest', j, st_j, st_f', st_a, url',
          description'.
        split; [done |]. split; [| done].
        simpl. unfold bind at 1. rewrite Hstep.
        by rewrite <- app_assoc in Hdone.
Qed.

(** C3, amended.  Every record the analysis loop hands to the report was
    returned by the analyzer for one job of the list, in the state the run
    had reached after the jobs before it and the fetch of its description;
    its [match_score] is 0, or it is the value under [match_score] of the
    parsed response the oracle gave there to the request built from that
    job's title and description.  Nothing bounds that value. *)
Theorem analyzed_score_is_zero_or_oracle_value (unique_jobs : list job)
    (analyzed_jobs : list pydict) (st st' : St E) :
  analyze_jobs E self unique_jobs [] st = (Ok analyzed_jobs, st') →
  ∀ (i : nat) (r : pydict),
    analyzed_jobs !! i = Some r →
    ∃ (done rest : list job) (job_data : job) (st_j st_f st_a : St E)
      (url description : option string),
      unique_jobs = done ++ job_data :: rest
      ∧ analyze_jobs E self done [] st = (Ok (take i analyzed_jobs), st_j)
      ∧ job_data !! "url" = Some url
      ∧ extract_job_description E url 3 st_j = (Ok description, st_f)
      ∧ analyze_with_gpt E self (<["description" := description]> job_data)
          st_f
        = (Ok r, st_a)
      ∧ (dict_get "match_score" r = Some (PInt 0)
         ∨ ∃ title text w' result v,
             job_data !! "title" = Some title
             ∧ chat_completion E system_prompt
                 (user_prompt title (resume self) description) (world st_f)
               = (Ok (Some text), w')
             ∧ parse_response E (PyStr.strip text) = Ok result
             ∧ py_subscript result "match_score" = Ok v
             ∧ dict_get "match_score" r = Some v).
Proof.
  intros Hrun i r Hi.
  destruct (analyze_jobs_provenance _ _ _ _ _ Hrun)
    as (added & Hout & Hadded).
  simpl in Hout. subst added.
  destruct (Hadded i r Hi)
    as (done & rest & job_data & st_j & st_f & st_a & url & description
        & Hjobs & Hdone & Hu & Hfetch & Hanalysis).
  exists done, rest, job_data, st_j, st_f, st_a, url, description.
  repeat (split; [done |]).
  destruct (analyze_with_gpt_score_of_request E self _ _ _ _ Hanalysis)
    as [Hzero|(title & d & text & w' & result & v
               & Ht & Hd & Hchat & Hparse & Hv & Hscore)]; [by left |].
  right. rewrite lookup_insert_eq in Hd. injection Hd as <-.
  rewrite lookup_insert_ne in Ht by done.
  by exists title, text, w', result, v.
Qed.

End ScoreFacts.

(** ** The report step *)

Section ReportFacts.

Variable E : Env.
Variable self : analyzer.

(** With no analyzed job the report step does nothing. *)
Lemma save_results_nothing (st : St E) :
  save_results E self [] st = (Ok tt, st).
Proof. reflexivity. Qed.

Lemma print_entry_files (entry : console_entry) :
  preserves files (print_entry E entry).
Proof. by intros st r st' [= _ <-]. Qed.

(** With analyzed jobs, once the frame is built and the sequence column
    is in, the file is written before any statistic is asked: whatever
    the statistics do, the step ends with exactly that one file added. *)
Lemma save_results_writes_first (analyzed_jobs : list pydict)
    (df0 df : Frame (tables E)) (st st' : St E) (r : res unit) :
  analyzed_jobs ≠ [] →
  frame_new (tables E) analyzed_jobs = Ok df0 →
  frame_insert (tables E) 0 "S.No" (seqZ 1 (frame_len (tables E) df0)) df0
  = Ok df →
  save_results E self analyzed_jobs st = (r, st') →
  files st' = files st ++ [(filename self, df)].
Proof.
  intros Hne Hnew Hinsert. unfold save_results.
  destruct analyzed_jobs as [|record records]; [done |].
  rewrite Hnew. unfold bind at 1, lift at 1.
  rewrite Hinsert. unfold bind at 1, lift at 1.
  unfold bind at 1, to_csv at 1.
  intros Hrun.
  apply (preserves_bind files) in Hrun; [exact Hrun | apply print_entry_files |].
  intros _.
  repeat (apply preserves_bind;
          [first [apply print_entry_files | apply preserves_lift] | intros ?]).
  apply print_entry_files.
Qed.

End ReportFacts.

(** ** Concrete runs *)

Lemma run_result {E : Env} {A} (run : res A * St E) (r : res A) :
  fst run = r → run = (r, snd run).
Proof. destruct run as [r0 st]. simpl. by intros ->. Qed.

Lemma ok_value {A} (r : res A) (d : A) :
  is_ok r = true → r = Ok (match r with Ok a => a | Raise _ => d end).
Proof. by destruct r. Qed.

(** C1 at a job whose oracle call raises: the fallback record. *)
Lemma analysis_failure_yields_fallback_witness :
  fst (analyze_with_gpt failing_oracle_env example_analyzer example_job
         (initial_state failing_oracle_env tt))
  = Ok example_fallback.
Proof.
  pose proof (analysis_failure_yields_fallback failing_oracle_env
                example_analyzer example_job (Some "strategy")
                (Some "Strategy Lead") (Some "Acme GmbH") (Some "Berlin")
                example_url (initial_state failing_oracle_env tt)
                eq_refl eq_refl eq_refl eq_refl eq_refl)
    as (_ & _ & Horacle & _).
  exact (Horacle (Some "Lead the strategy team.")
           (OtherError "APIConnectionError") tt eq_refl eq_refl).
Defined.

(** C2 at three attempts on a page that cannot be read. *)
Lemma exhausted_fetch_returns_sentinel_witness :
  ∃ st',
    extract_job_description unreachable_env example_url 3
      (initial_state unreachable_env tt)
    = (Ok (Some "Failed to fetch description"), st')
    ∧ fetched st' = [] ++ replicate (Z.to_nat 3) example_url
    ∧ error_log st' = [] ++ [LogDescriptionFailed example_url].
Proof.
  apply (exhausted_fetch_returns_sentinel unreachable_env example_url 3
           (initial_state unreachable_env tt)).
  - lia.
  - intros w. exists TimeoutException, w. reflexivity.
Defined.

(** C10 at no attempt at all. *)
Lemma no_attempt_returns_none_witness :
  extract_job_description unreachable_env example_url 0
    (initial_state unreachable_env tt)
  = (Ok None, initial_state unreachable_env tt).
Proof.
  apply (proj1 (no_attempt_returns_none unreachable_env example_url 0
                  (initial_state unreachable_env tt))).
  lia.
Defined.

(** C5 at a harvest with one duplicate. *)
Lemma dedupe_keeps_first_occurrences_witness :
  ∃ unique_jobs,
    remove_duplicates example_harvest = Ok unique_jobs
    ∧ (length unique_jobs ≤ length example_harvest)%nat
    ∧ NoDup ((λ j : job, j !! "url") <$> unique_jobs)
    ∧ sublist unique_jobs example_harvest.
Proof.
  destruct (dedupe_keeps_first_occurrences example_harvest)
    as (unique_jobs & Hrun & Hlen & Hnodup & Hsub & _).
  - repeat constructor; eexists; reflexivity.
  - exists unique_jobs. repeat split; assumption.
Defined.


(** C7 at the example response. *)
Lemma valid_response_is_joined_witness :
  fst (analyze_with_gpt (reply_env example_response) example_analyzer
         example_job (initial_state (reply_env example_response) tt))
  = Ok example_analysis.
Proof.
  apply (valid_response_is_joined (reply_env example_response)
           example_analyzer example_job (Some "strategy")
           (Some "Strategy Lead") (Some "Acme GmbH") (Some "Berlin")
           example_url (Some "Lead the strategy team.")
           (initial_state (reply_env example_response) tt)
           example_response tt example_fields (PInt 150) (PStr "No")
           (PStr "Apply") ["SQL"; "Python"] ["German"]);
    reflexivity.
Defined.

(** A response in a fence without the [json] tag, which is not the
    wrapper the recovery is written for: the opening fence stays in
    place, the second parse fails and the analysis is the fallback. *)
Lemma plain_fence_is_not_recovered :
  Json.loads (PyStr.strip example_response) = Some (PDict example_fields)
  ∧ json_loads (reply_env (plain_fence example_response))
      (PyStr.strip (plain_fence example_response)) = None
  ∧ parse_response (reply_env (plain_fence example_response))
      (PyStr.strip (plain_fence example_response)) = Raise JSONDecodeError
  ∧ fst (analyze_with_gpt (reply_env (plain_fence example_response))
           example_analyzer example_job
           (initial_state (reply_env (plain_fence example_response)) tt))
    = Ok example_fallback
  ∧ fst (analyze_with_gpt (reply_env example_response) example_analyzer
           example_job (initial_state (reply_env example_response) tt))
    = Ok example_analysis
  ∧ example_fallback ≠ example_analysis.
Proof.
  repeat split; try (vm_compute; reflexivity).
  discriminate.
Qed.

(** C8 at the example response in a tagged fence. *)
Lemma tagged_fence_is_recovered_witness :
  clean_response
    (PyStr.strip (" " +:+ ("```json" +:+ (newline +:+ example_response
                                           +:+ newline) +:+ "```")
                  +:+ newline))
  = PyStr.strip (newline +:+ example_response +:+ newline)
  ∧ parse_response (reply_env example_response)
      (PyStr.strip (" " +:+ ("```json" +:+ (newline +:+ example_response
                                             +:+ newline) +:+ "```")
                    +:+ newline))
    = Ok (PDict example_fields).
Proof.
  destruct (tagged_fence_is_recovered (reply_env example_response)
              example_analyzer example_job " " newline
              (newline +:+ example_response +:+ newline) example_fields)
    as (Hclean & Hparse & _); try (vm_compute; reflexivity).
  split; assumption.
Defined.

(** C3: in the run of [pipeline_env] the oracle answers 150, and the
    first record the analysis loop hands to the report carries 150,
    outside [0, 100]. *)
Lemma analyzed_score_out_of_range :
  Json.loads (PyStr.strip example_response) = Some (PDict example_fields)
  ∧ dict_get "match_score" example_fields = Some (PInt 150)
  ∧ is_ok (fst run_analysis) = true
  ∧ ¬ (∀ r, r ∈ run_analyzed_jobs →
         ∃ z, dict_get "match_score" r = Some (PInt z) ∧ 0 ≤ z ≤ 100).
Proof.
  split; [vm_compute; reflexivity |].
  split; [reflexivity |].
  split; [vm_compute; reflexivity |].
  intros Hclaim.
  assert (Hin : example_analysis ∈ run_analyzed_jobs).
  { assert (Hfirst : ∃ others, run_analyzed_jobs = example_analysis :: others).
    { vm_compute. eexists. reflexivity. }
    destruct Hfirst as (others & Hfirst). rewrite Hfirst.
    apply list_elem_of_here. }
  destruct (Hclaim example_analysis Hin) as (z & Hz & Hrange).
  injection Hz as <-. lia.
Qed.

(** C3, amended, at the first record of the run of [pipeline_env]. *)
Lemma analyzed_score_is_zero_or_oracle_value_witness :
  ∃ (job_data : job) (st_f st_a : St pipeline_env)
    (description : option string),
    analyze_with_gpt pipeline_env example_analyzer
      (<["description" := description]> job_data) st_f
    = (Ok example_analysis, st_a)
    ∧ (dict_get "match_score" example_analysis = Some (PInt 0)
       ∨ ∃ title text w' result v,
           job_data !! "title" = Some title
           ∧ chat_completion pipeline_env system_prompt
               (user_prompt title (resume example_analyzer) description)
               (world st_f)
             = (Ok (Some text), w')
           ∧ parse_response pipeline_env (PyStr.strip text) = Ok result
           ∧ py_subscript result "match_score" = Ok v
           ∧ dict_get "match_score" example_analysis = Some v).
Proof.
  destruct (analyzed_score_is_zero_or_oracle_value pipeline_env
              example_analyzer run_unique_jobs run_analyzed_jobs
              (snd run_harvest) (snd run_analysis))
    with (i := 0%nat) (r := example_analysis)
    as (done & rest & job_data & st_j & st_f & st_a & url & description
        & _ & _ & _ & _ & Hanalysis & Hscore).
  - apply run_result, ok_value. vm_compute. reflexivity.
  - vm_compute. reflexivity.
  - exists job_data, st_f, st_a, description. split; assumption.
Defined.

(** C4: a job page read with success and an empty description; the job is
    skipped, no record is added and the oracle is not asked. *)
Lemma empty_description_skips_job :
  description_page empty_description_env example_url tt = (Ok EmptyString, tt)
  ∧ fst (extract_job_description empty_description_env example_url 3
           (initial_state empty_description_env tt))
    = Ok (Some EmptyString)
  ∧ fst (process_job empty_description_env example_analyzer example_job []
           (initial_state empty_description_env tt))
    = Ok []
  ∧ asked (snd (process_job empty_description_env example_analyzer
                  example_job [] (initial_state empty_description_env tt)))
    = [].
Proof. repeat split; vm_compute; reflexivity. Qed.

(** C4, amended, at a job whose page cannot be read: the sentinel goes to
    the analyzer and a row is added. *)
Lemma falsy_description_skips_job_witness :
  ∃ r st2,
    process_job unreachable_env example_analyzer example_job []
      (initial_state unreachable_env tt)
    = (Ok ([] ++ [r]), st2).
Proof.
  destruct (falsy_description_skips_job unreachable_env example_analyzer
              example_job (Some "strategy") (Some "Strategy Lead")
              (Some "Acme GmbH") (Some "Berlin") example_url
              (Some "Failed to fetch description") []
              (initial_state unreachable_env tt)
              (snd (extract_job_description unreachable_env example_url 3
                      (initial_state unreachable_env tt))))
    as (_ & Hrow & _);
    try (apply run_result; vm_compute; reflexivity); try reflexivity.
  destruct (Hrow eq_refl) as (r & st2 & _ & Hrun).
  exists r, st2. exact Hrun.
Defined.

(** ** More on the deduplicator *)

Section DeduplicatorMore.

Implicit Types (jobs : list job) (seen : gset (option string)).

(** A result of the loop fixes what the input was: every record had a
    URL, and the result is what was unique so far followed by the new
    records. *)
Lemma remove_duplicates_loop_inv jobs :
  ∀ unique_jobs seen out,
    remove_duplicates_loop jobs unique_jobs seen = Ok out →
    Forall has_url jobs ∧ out = unique_jobs ++ keep_new seen jobs.
Proof.
  induction jobs as [|job_data jobs IH]; intros unique_jobs seen out; simpl.
  - intros [= <-]. split; [constructor | by rewrite app_nil_r].
  - unfold job_item.
    destruct (job_data !! "url") as [url|] eqn:Hurl; simpl; [| done].
    destruct (decide (url ∈ seen)); intros Hrun;
      destruct (IH _ _ _ Hrun) as [Hall ->].
    + split; [constructor; [by exists url | done] | done].
    + split; [constructor; [by exists url | done] |].
      by rewrite <- app_assoc.
Qed.

Lemma remove_duplicates_loop_missing jobs :
  ¬ Forall has_url jobs →
  ∀ unique_jobs seen,
    remove_duplicates_loop jobs unique_jobs seen = Raise (KeyError "url").
Proof.
  induction jobs as [|job_data jobs IH]; intros Hnot unique_jobs seen.
  - destruct Hnot. constructor.
  - simpl. unfold job_item.
    destruct (job_data !! "url") as [url|] eqn:Hurl; simpl; [| done].
    assert (Hrest : ¬ Forall has_url jobs).
    { intros Hall. apply Hnot. constructor; [by exists url | done]. }
    destruct (decide (url ∈ seen)); by apply IH.
Qed.

(** A list of records with pairwise distinct URLs, none met before, is
    kept whole. *)
Lemma keep_new_fixed jobs :
  ∀ seen,
    NoDup ((λ j : job, j !! "url") <$> jobs) →
    (∀ job_data, job_data ∈ jobs →
       ∃ url, job_data !! "url" = Some url ∧ url ∉ seen) →
    keep_new seen jobs = jobs.
Proof.
  induction jobs as [|j jobs IH]; intros seen Hnodup Hfresh; simpl; [done |].
  destruct (Hfresh j) as (url & Hurl & Hnew); [apply list_elem_of_here |].
  rewrite Hurl. rewrite decide_False by done. f_equal.
  rewrite fmap_cons in Hnodup. apply NoDup_cons in Hnodup as [Hhead Hnodup].
  apply IH; [done |].
  intros j' Hin.
  destruct (Hfresh j') as (url' & Hurl' & Hnew'); [by apply list_elem_of_further |].
  exists url'. split; [done |].
  assert (url' ≠ url).
  { intros ->. apply Hhead. rewrite Hurl, <- Hurl'.
    apply list_elem_of_fmap. by exists j'. }
  set_solver.
Qed.

Lemma keep_new_covers jobs :
  ∀ seen job_data url,
    Forall has_url jobs →
    job_data ∈ jobs → job_data !! "url" = Some url →
    url ∈ seen
    ∨ ∃ kept, kept ∈ keep_new seen jobs ∧ kept !! "url" = Some url.
Proof.
  induction jobs as [|j jobs IH]; intros seen job_data url Hall Hin Hurl.
  - by apply elem_of_nil in Hin.
  - apply Forall_cons in Hall as [[u Hu] Hall]. simpl. rewrite Hu.
    apply elem_of_cons in Hin as [->|Hin].
    + rewrite Hurl in Hu. injection Hu as <-.
      destruct (decide (url ∈ seen)); [by left |].
      right. exists j. split; [apply list_elem_of_here | done].
    + destruct (decide (u ∈ seen)).
      * by apply (IH seen job_data url).
      * destruct (IH ({[u]} ∪ seen) job_data url Hall Hin Hurl)
          as [Hseen|(kept & Hkept & Hk)].
        -- apply elem_of_union in Hseen as [->%elem_of_singleton|Hseen];
             [| by left].
           right. exists j. split; [apply list_elem_of_here | done].
        -- right. exists kept. split; [by apply list_elem_of_further | done].
Qed.

(** X1.  [remove_duplicates] is idempotent: applied to its own result it
    returns that result. *)
Theorem dedupe_idempotent jobs (unique_jobs : list job) :
  remove_duplicates jobs = Ok unique_jobs →
  remove_duplicates unique_jobs = Ok unique_jobs.
Proof.
  unfold remove_duplicates. intros Hrun.
  destruct (remove_duplicates_loop_inv _ _ _ _ Hrun) as [Hall ->]. simpl.
  assert (Hfresh : ∀ job_data, job_data ∈ keep_new ∅ jobs →
            ∃ url, job_data !! "url" = Some url ∧ url ∉ (∅ : gset _))
    by (intros job_data Hin; by apply (keep_new_fresh jobs)).
  rewrite remove_duplicates_loop_keep_new.
  - simpl. f_equal. apply keep_new_fixed; [apply keep_new_NoDup | done].
  - apply Forall_forall. intros j Hin.
    destruct (Hfresh j Hin) as (url & Hurl & _). by exists url.
Qed.

(** X2.  [remove_duplicates] neither loses nor invents a URL: a URL is
    carried by a record of the result exactly when it is carried by a
    record of the input. *)
Theorem dedupe_keeps_every_url jobs (unique_jobs : list job)
    (url : option string) :
  remove_duplicates jobs = Ok unique_jobs →
  (∃ job_data, job_data ∈ unique_jobs ∧ job_data !! "url" = Some url)
  ↔ (∃ job_data, job_data ∈ jobs ∧ job_data !! "url" = Some url).
Proof.
  unfold remove_duplicates. intros Hrun.
  destruct (remove_duplicates_loop_inv _ _ _ _ Hrun) as [Hall ->]. simpl.
  split.
  - intros (j & Hin & Hurl). exists j. split; [| done].
    eapply elem_of_sublist; [exact Hin | apply keep_new_sublist].
  - intros (j & Hin & Hurl).
    destruct (keep_new_covers jobs ∅ j url Hall Hin Hurl) as [Hseen|Hkept];
      [set_solver | done].
Qed.

(** X3.  A record without the [url] key makes [remove_duplicates] raise
    [KeyError], and nothing else does. *)
Theorem dedupe_raises_on_missing_url jobs :
  remove_duplicates jobs = Raise (KeyError "url") ↔ ¬ Forall has_url jobs.
Proof.
  unfold remove_duplicates. split.
  - intros Hraise Hall.
    rewrite remove_duplicates_loop_keep_new in Hraise by done. done.
  - intros Hnot. by apply remove_duplicates_loop_missing.
Qed.

End DeduplicatorMore.

(** ** More on the description fetcher *)

Section FetcherMore.

Variable E : Env.

Lemma attempt_loop_reads (url : option string) (max_retries : Z)
    (text : string) (n : nat) :
  ∀ (k : Z) (st : St E),
    k + Z.of_nat n < max_retries →
    fails_then_reads E url n (world st) text →
    ∃ st',
      attempt_loop E url max_retries (seqZ k (max_retries - k)) st
      = (Ok (Some text), st')
      ∧ fetched st' = fetched st ++ replicate (S n) url
      ∧ error_log st' = error_log st
      ∧ asked st' = asked st.
Proof.
  induction n as [|n IH]; intros k st Hk Hworld.
  - destruct Hworld as [w' Hw].
    rewrite seqZ_cons by lia. cbn [attempt_loop].
    unfold bind at 1. unfold try_except, bind at 1.
    destruct (open_description_fetched E url st) as (r & w & Hpage & ->).
    rewrite Hw in Hpage. injection Hpage as <- <-.
    unfold ret. simpl. by eauto.
  - destruct Hworld as (e & w' & Hw & Hrest).
    rewrite seqZ_cons by lia.
    replace (Z.pred (max_retries - k)) with (max_retries - Z.succ k) by lia.
    cbn [attempt_loop]. unfold bind at 1. unfold try_except, bind at 1.
    destruct (open_description_fetched E url st) as (r & w & Hpage & ->).
    rewrite Hw in Hpage. injection Hpage as <- <-.
    replace (k =? max_retries - 1) with false
      by (symmetry; apply Z.eqb_neq; lia).
    unfold ret at 1.
    edestruct (IH (Z.succ k)) as (st' & -> & Hf & Hl & Ha);
      [lia | exact Hrest |].
    exists st'. split; [done |]. rewrite Hf, Hl, Ha. simpl.
    by rewrite <- app_assoc.
Qed.

(** The loop returns, and opens the page at most once per attempt. *)
Lemma attempt_loop_opens (url : option string) (max_retries : Z)
    (attempts : list Z) :
  ∀ st : St E,
    ∃ value st' k,
      attempt_loop E url max_retries attempts st = (Ok value, st')
      ∧ (k ≤ length attempts)%nat
      ∧ fetched st' = fetched st ++ replicate k url.
Proof.
  induction attempts as [|attempt rest IH]; intros st.
  - exists None, st, 0%nat. simpl. by rewrite app_nil_r.
  - cbn [attempt_loop]. unfold bind at 1. unfold try_except, bind at 1.
    destruct (open_description_fetched E url st) as (r & w & Hpage & ->).
    destruct r as [text|e].
    + unfold ret. simpl. eexists _, _, 1%nat.
      split; [reflexivity |]. simpl. split; [lia | done].
    + destruct (attempt =? max_retries - 1).
      * unfold log_error, ret. simpl. eexists _, _, 1%nat.
        split; [reflexivity |]. simpl. split; [lia | done].
      * unfold ret at 1.
        edestruct IH as (value & st' & k & -> & Hk & Hf).
        exists value, st', (S k). split; [done |].
        split; [simpl; lia |]. rewrite Hf. simpl. by rewrite <- app_assoc.
Qed.

(** X4.  When the job page fails [n] times and is then read, with
    [n < max_retries], [extract_job_description] returns the text read,
    having opened the page exactly [n + 1] times and logged no error. *)
Theorem fetch_succeeds_on_later_attempt (url : option string)
    (max_retries : Z) (n : nat) (text : string) (st : St E) :
  Z.of_nat n < max_retries →
  fails_then_reads E url n (world st) text →
  ∃ st',
    extract_job_description E url max_retries st = (Ok (Some text), st')
    ∧ fetched st' = fetched st ++ replicate (S n) url
    ∧ error_log st' = error_log st.
Proof.
  intros Hn Hworld. unfold extract_job_description.
  destruct (attempt_loop_reads url max_retries text n 0 st)
    as (st' & Hrun & Hf & Hl & _); [lia | done |].
  rewrite Z.sub_0_r in Hrun. by exists st'.
Qed.

(** X5.  Whatever the job page does, [extract_job_description] returns
    without raising and opens the page at most [max_retries] times. *)
Theorem fetch_never_raises (url : option string) (max_retries : Z)
    (st : St E) :
  ∃ value st' k,
    extract_job_description E url max_retries st = (Ok value, st')
    ∧ Z.of_nat k ≤ Z.max 0 max_retries
    ∧ fetched st' = fetched st ++ replicate k url.
Proof.
  unfold extract_job_description.
  destruct (attempt_loop_opens url max_retries (seqZ 0 max_retries) st)
    as (value & st' & k & Hrun & Hk & Hf).
  exists value, st', k. split; [done |]. split; [| done].
  rewrite length_seqZ in Hk. lia.
Qed.

End FetcherMore.

(** ** More on the listing harvester *)

Section HarvesterMore.

Variable E : Env.
Variable self : analyzer.

Lemma logged_nil (st : St E) : logged st [] = st.
Proof. destruct st. unfold logged. simpl. by rewrite app_nil_r. Qed.

Lemma logged_app (st : St E) (a b : list log_entry) :
  logged (logged st a) b = logged st (a ++ b).
Proof. unfold logged. simpl. by rewrite <- app_assoc. Qed.

Lemma basic_record_not_empty (job_element : listing_element)
    (search_category : string) (info : job) :
  basic_record job_element search_category = Some info → info ≠ ∅.
Proof.
  unfold basic_record.
  destruct (el_title job_element), (el_href job_element),
    (el_company job_element), (el_location job_element); try done.
  intros [= <-]. apply insert_non_empty.
Qed.

Lemma basic_record_identity (job_element : listing_element)
    (search_category : string) (info : job) :
  basic_record job_element search_category = Some info →
  has_identity info ∧ info !! "search_category" = Some (Some search_category)
  ∧ info !! "description" = Some None.
Proof.
  unfold basic_record, has_identity.
  destruct (el_title job_element), (el_href job_element),
    (el_company job_element), (el_location job_element); try done.
  intros [= <-]. repeat split; try (eexists; reflexivity); reflexivity.
Qed.

(** One element: the record when all parts are there, otherwise [None]
    and one entry in the log; it never raises. *)
Lemma extract_basic_job_info_spec (job_element : listing_element)
    (search_category : string) (st : St E) :
  extract_basic_job_info E job_element search_category st
  = (Ok (basic_record job_element search_category),
     logged st (malformed_entries [job_element])).
Proof.
  unfold extract_basic_job_info, try_except, bind, lift, find_element, ret,
    log_error, basic_record, malformed_entries, logged.
  destruct job_element as [[t|] [h|] [c|] [l|]]; simpl;
    rewrite ?app_nil_r; try reflexivity; by destruct st.
Qed.

Lemma malformed_entries_cons (el : listing_element)
    (els : list listing_element) :
  malformed_entries (el :: els)
  = malformed_entries [el] ++ malformed_entries els.
Proof. unfold malformed_entries. simpl. by rewrite app_nil_r. Qed.

Lemma collect_page_jobs_spec (job_listings : list listing_element)
    (search_category : string) :
  ∀ (page_jobs : list job) (st : St E),
    collect_page_jobs E job_listings search_category page_jobs st
    = (Ok (page_jobs
           ++ omap (λ el, basic_record el search_category) job_listings),
       logged st (malformed_entries job_listings)).
Proof.
  induction job_listings as [|el els IH]; intros page_jobs st.
  - simpl. unfold ret. by rewrite app_nil_r, logged_nil.
  - cbn [collect_page_jobs]. unfold bind at 1.
    rewrite (malformed_entries_cons el els), <- logged_app.
    rewrite extract_basic_job_info_spec. cbn [omap list_omap].
    destruct (basic_record el search_category) as [info|] eqn:Hinfo.
    + rewrite decide_False by (by eapply basic_record_not_empty).
      rewrite IH. rewrite <- app_assoc. reflexivity.
    + by rewrite IH.
Qed.

Lemma scrape_page_loaded (page_number : Z)
    (search_category : string) (st : St E)
    (job_listings : list listing_element) (w : World E) :
  listing_page E (listing_url self search_category page_number) (world st)
  = (Ok job_listings, w) →
  scrape_page E self page_number search_category st
  = (Ok (omap (λ el, basic_record el search_category) job_listings),
     {| world := w;
        fetched := fetched st
          ++ [Some (listing_url self search_category page_number)];
        asked := asked st;
        error_log := error_log st ++ malformed_entries job_listings;
        files := files st; console := console st |}).
Proof.
  intros Hpage. unfold scrape_page, try_except. unfold bind at 1.
  unfold open_listing. rewrite Hpage.
  by rewrite collect_page_jobs_spec.
Qed.

Lemma scrape_page_failed (page : Z) (rest : list Z)
    (category : string) (all_jobs : list job) (st : St E) (e : exn)
    (w : World E) :
  listing_page E (listing_url self category page) (world st) = (Raise e, w) →
  let st' :=
    {| world := w;
       fetched := fetched st ++ [Some (listing_url self category page)];
       asked := asked st;
       error_log := error_log st ++ [LogScrapeError page];
       files := files st; console := console st |} in
  scrape_page E self page category st = (Ok [], st')
  ∧ harvest_pages E self (page :: rest) category all_jobs st
    = (Ok all_jobs, st').
Proof.
  intros Hpage st'.
  assert (Hscrape : scrape_page E self page category st = (Ok [], st')).
  { unfold scrape_page, try_except. unfold bind at 1.
    unfold open_listing. by rewrite Hpage. }
  split; [done |].
  cbn [harvest_pages]. unfold bind. by rewrite Hscrape.
Qed.

Lemma scrape_page_identity (page_number : Z) (search_category : string)
    (st : St E) :
  ∃ page_jobs st',
    scrape_page E self page_number search_category st = (Ok page_jobs, st')
    ∧ Forall has_identity page_jobs
    ∧ length (fetched st') = S (length (fetched st)).
Proof.
  destruct (listing_page E (listing_url self search_category page_number)
              (world st)) as [[els|e] w] eqn:Hpage.
  - rewrite (scrape_page_loaded _ _ _ _ _ Hpage).
    eexists _, _. split; [reflexivity |]. split.
    + apply Forall_forall. intros j (el & Hel & Hj)%list_elem_of_omap.
      by apply (basic_record_identity el search_category).
    + simpl. rewrite length_app. simpl. lia.
  - destruct (scrape_page_failed page_number [] search_category []
                st e w Hpage) as [-> _].
    eexists _, _. split; [reflexivity |]. split; [constructor |].
    simpl. rewrite length_app. simpl. lia.
Qed.

Lemma harvest_pages_identity (pages : list Z) (category : string) :
  ∀ (all_jobs : list job) (st : St E),
    ∃ new_jobs st',
      harvest_pages E self pages category all_jobs st
      = (Ok (all_jobs ++ new_jobs), st')
      ∧ Forall has_identity new_jobs
      ∧ (length (fetched st') ≤ length (fetched st) + length pages)%nat.
Proof.
  induction pages as [|page rest IH]; intros all_jobs st.
  - exists [], st. simpl. rewrite app_nil_r. by split; [| split; [| lia]].
  - cbn [harvest_pages]. unfold bind at 1.
    destruct (scrape_page_identity page category st)
      as (y & st1 & -> & Hy & Hf).
    destruct y as [|j y].
    + exists [], st1. rewrite app_nil_r. split; [done |].
      split; [done | simpl; lia].
    + destruct (IH (all_jobs ++ j :: y) st1) as (new & st' & -> & Hnew & Hf').
      exists ((j :: y) ++ new), st'. rewrite <- app_assoc.
      split; [done |]. split; [by apply Forall_app | simpl; lia].
Qed.

Lemma harvest_categories_identity (categories : list string)
    (all_jobs : list job) (st : St E) :
  ∃ new_jobs st',
    harvest_categories E self categories all_jobs st
    = (Ok (all_jobs ++ new_jobs), st')
    ∧ Forall has_identity new_jobs
    ∧ Z.of_nat (length (fetched st'))
      ≤ Z.of_nat (length (fetched st))
        + Z.of_nat (length categories) * Z.max 0 (max_pages self).
Proof.
  revert all_jobs st.
  induction categories as [|category rest IH]; intros all_jobs st.
  - exists [], st. simpl. rewrite app_nil_r. split; [done |].
    split; [done | lia].
  - cbn [harvest_categories]. unfold bind at 1.
    destruct (harvest_pages_identity (seqZ 1 (max_pages self)) category
                all_jobs st) as (new1 & st1 & -> & Hnew1 & Hf1).
    destruct (IH (all_jobs ++ new1) st1) as (new2 & st' & -> & Hnew2 & Hf2).
    exists (new1 ++ new2), st'. rewrite <- app_assoc.
    split; [done |]. split; [by apply Forall_app |].
    rewrite length_seqZ in Hf1. simpl length. lia.
Qed.

(** X6.  On a listings page that loads, [scrape_page] returns, in page
    order, exactly the records of the elements that have a title, a link,
    a company and a location (texts stripped, description [None]), and
    logs one error for every other element. *)
Theorem scrape_page_keeps_well_formed (page_number : Z)
    (search_category : string) (st : St E)
    (job_listings : list listing_element) (w : World E) :
  listing_page E (listing_url self search_category page_number) (world st)
  = (Ok job_listings, w) →
  scrape_page E self page_number search_category st
  = (Ok (omap (λ el, basic_record el search_category) job_listings),
     {| world := w;
        fetched := fetched st
          ++ [Some (listing_url self search_category page_number)];
        asked := asked st;
        error_log := error_log st ++ malformed_entries job_listings;
        files := files st; console := console st |}).
Proof. apply scrape_page_loaded. Qed.

(** X7.  A listings page that cannot be loaded counts as an empty page:
    [scrape_page] returns no record and logs the error, and the page loop
    leaves the category there, the later pages not being opened. *)
Theorem failed_page_ends_category (page : Z) (rest : list Z)
    (category : string) (all_jobs : list job) (st : St E) (e : exn)
    (w : World E) :
  listing_page E (listing_url self category page) (world st) = (Raise e, w) →
  let st' :=
    {| world := w;
       fetched := fetched st ++ [Some (listing_url self category page)];
       asked := asked st;
       error_log := error_log st ++ [LogScrapeError page];
       files := files st; console := console st |} in
  scrape_page E self page category st = (Ok [], st')
  ∧ harvest_pages E self (page :: rest) category all_jobs st
    = (Ok all_jobs, st').
Proof. apply scrape_page_failed. Qed.

(** X8.  Harvesting never raises and never drops what was collected; every
    record it adds holds the five identity fields; and it opens at most
    [max_pages] listings pages per category. *)
Theorem harvest_categories_collects (categories : list string)
    (all_jobs : list job) (st : St E) :
  ∃ new_jobs st',
    harvest_categories E self categories all_jobs st
    = (Ok (all_jobs ++ new_jobs), st')
    ∧ Forall has_identity new_jobs
    ∧ Z.of_nat (length (fetched st'))
      ≤ Z.of_nat (length (fetched st))
        + Z.of_nat (length categories) * Z.max 0 (max_pages self).
Proof. apply harvest_categories_identity. Qed.

End HarvesterMore.

(** ** More on the match analyzer *)

Section AnalyzerMore.

Variable E : Env.
Variable self : analyzer.

Lemma job_item_Ok (k : string) (job_data : job) (f : option string) :
  job_item k job_data = Ok f → job_data !! k = Some f.
Proof. unfold job_item. by destruct (job_data !! k); intros [= ->]. Qed.

Lemma build_analyzed_job_identity (job_data : job) (result : pyval)
    (r : pydict) :
  build_analyzed_job job_data result = Ok r →
  map fst r = report_keys ∧ same_identity job_data r.
Proof.
  unfold build_analyzed_job. intros Hi.
  repeat match type of Hi with
         | res_bind ?x _ = _ =>
             let H := fresh "Hx" in
             destruct x eqn:H; cbn [res_bind] in Hi; [| done]
         end.
  injection Hi as <-. split; [done |].
  unfold same_identity.
  repeat match goal with
         | H : job_item _ _ = Ok _ |- _ => apply job_item_Ok in H; rewrite H
         end.
  done.
Qed.

Lemma create_fallback_analysis_identity (job_data : job) (r : pydict) :
  create_fallback_analysis job_data = Ok r →
  map fst r = report_keys ∧ same_identity job_data r.
Proof.
  unfold create_fallback_analysis. intros Hi.
  repeat match type of Hi with
         | res_bind ?x _ = _ =>
             let H := fresh "Hx" in
             destruct x eqn:H; cbn [res_bind] in Hi; [| done]
         end.
  injection Hi as <-. split; [done |].
  unfold same_identity.
  repeat match goal with
         | H : job_item _ _ = Ok _ |- _ => apply job_item_Ok in H; rewrite H
         end.
  done.
Qed.

Lemma analyze_with_gpt_identity (job_data : job) (st st' : St E) (r : pydict) :
  analyze_with_gpt E self job_data st = (Ok r, st') →
  map fst r = report_keys ∧ same_identity job_data r.
Proof.
  unfold analyze_with_gpt, try_except.
  destruct (analyze_attempt E self job_data st) as [[r0|e] st0] eqn:Hrun.
  - intros [= <- <-].
    unfold analyze_attempt, bind, lift, raise in Hrun.
    destruct (job_item "title" job_data); [| done].
    destruct (job_item "description" job_data); [| done].
    destruct (chat E system_prompt _ st) as [[[text|]|e] st1]; try done.
    destruct (interpret_response E job_data (PyStr.strip text)) as [r1|e] eqn:Hi;
      [| done].
    injection Hrun as <- _. unfold interpret_response in Hi.
    destruct (parse_response E (PyStr.strip text)); [| done].
    cbn [res_bind] in Hi.
    destruct (check_required required_fields a1); [| done].
    by apply (build_analyzed_job_identity job_data a1).
  - unfold bind, lift.
    destruct (job_item "title" job_data); [| done].
    destruct (create_fallback_analysis job_data) as [r1|e1] eqn:Hfb; [| done].
    intros [= <- <-]. by apply create_fallback_analysis_identity.
Qed.

(** X9.  Every record [analyze_with_gpt] returns, on the success path and
    on the fallback path alike, has the ten report keys in the same order
    and carries the five identity fields of the job it was given. *)
Theorem analyzed_record_shape (job_data : job) (st st' : St E) (r : pydict) :
  analyze_with_gpt E self job_data st = (Ok r, st') →
  map fst r
  = ["search_category"; "title"; "company"; "location"; "url";
     "match_score"; "german_required"; "key_matches"; "missing_skills";
     "recommendation"]
  ∧ same_identity job_data r.
Proof. apply analyze_with_gpt_identity. Qed.

Lemma analyze_with_gpt_effects (job_data : job) (st st' : St E)
    (r : res pydict) :
  analyze_with_gpt E self job_data st = (r, st') →
  fetched st' = fetched st
  ∧ error_log st' = error_log st
  ∧ files st' = files st
  ∧ console st' = console st
  ∧ asked st'
    = match job_data !! "title", job_data !! "description" with
      | Some title, Some description =>
          asked st
          ++ [(system_prompt,
               user_prompt title (resume self) description)]
      | _, _ => asked st
      end.
Proof.
  unfold analyze_with_gpt, try_except, analyze_attempt, bind, lift, job_item,
    chat, raise.
  destruct (job_data !! "title") as [title|];
    destruct (job_data !! "description") as [description|];
    try (by intros [= <- <-]).
  destruct (chat_completion E system_prompt _ (world st))
    as [[[text|]|e] w];
    [destruct (interpret_response E job_data (PyStr.strip text)) | |];
    by intros [= <- <-].
Qed.

(** X10.  [analyze_with_gpt] opens no page, logs nothing and writes
    nothing; it sends exactly one request, built from the title, the
    resume and the description, when the job has a title and a
    description, and none otherwise: there is no second attempt. *)
Theorem analyzer_asks_at_most_once (job_data : job) (st st' : St E)
    (r : res pydict) :
  analyze_with_gpt E self job_data st = (r, st') →
  fetched st' = fetched st
  ∧ error_log st' = error_log st
  ∧ files st' = files st
  ∧ console st' = console st
  ∧ asked st'
    = match job_data !! "title", job_data !! "description" with
      | Some title, Some description =>
          asked st
          ++ [(system_prompt,
               user_prompt title (resume self) description)]
      | _, _ => asked st
      end.
Proof. apply analyze_with_gpt_effects. Qed.

(** A response whose interpretation raises gives the fallback. *)
Lemma failed_interpretation_falls_back (job_data : job)
    (category title company location url description : option string)
    (st : St E) (text : string) (w : World E) (e : exn) :
  job_data !! "search_category" = Some category →
  job_data !! "title" = Some title →
  job_data !! "company" = Some company →
  job_data !! "location" = Some location →
  job_data !! "url" = Some url →
  job_data !! "description" = Some description →
  chat_completion E system_prompt
    (user_prompt title (resume self) description) (world st)
  = (Ok (Some text), w) →
  interpret_response E job_data (PyStr.strip text) = Raise e →
  fst (analyze_with_gpt E self job_data st)
  = Ok [("search_category", of_field category);
        ("title", of_field title);
        ("company", of_field company);
        ("location", of_field location);
        ("url", of_field url);
        ("match_score", PInt 0);
        ("german_required", PStr "No");
        ("key_matches", PStr "Analysis failed");
        ("missing_skills", PStr "Analysis failed");
        ("recommendation", PStr "Analysis failed - please review manually")].
Proof.
  intros Hc Ht Hco Hl Hu Hd Hchat Hi.
  pose proof (analyze_attempt_unfold E self job_data _ _ st Ht Hd) as Hrun.
  pose proof (chat_world E system_prompt
                (user_prompt title (resume self) description) st) as Hw.
  rewrite Hchat in Hw. simpl in Hw.
  destruct (chat E system_prompt _ st) as [r st'].
  simpl in Hw. subst r. rewrite Hi in Hrun.
  rewrite (analyze_with_gpt_failed E self _ _ _ _ _ Ht Hrun).
  by rewrite (create_fallback_analysis_ok job_data _ _ _ _ _ Hc Ht Hco Hl Hu).
Qed.

Lemma not_joinable_raises (sep : string) (v : pyval) :
  not_joinable v → py_join sep v = Raise TypeError.
Proof. destruct v; simpl; try done. by intros ->. Qed.

(** X11.  A response that parses to a JSON value other than an object (an
    array, a string, a number, a literal) gives the fallback record, even
    when it mentions the five field names. *)
Theorem non_object_response_falls_back (job_data : job)
    (category title company location url description : option string)
    (st : St E) (text : string) (w : World E) (result : pyval) :
  job_data !! "search_category" = Some category →
  job_data !! "title" = Some title →
  job_data !! "company" = Some company →
  job_data !! "location" = Some location →
  job_data !! "url" = Some url →
  job_data !! "description" = Some description →
  chat_completion E system_prompt
    (user_prompt title (resume self) description) (world st)
  = (Ok (Some text), w) →
  parse_response E (PyStr.strip text) = Ok result →
  (∀ d, result ≠ PDict d) →
  fst (analyze_with_gpt E self job_data st)
  = Ok [("search_category", of_field category);
        ("title", of_field title);
        ("company", of_field company);
        ("location", of_field location);
        ("url", of_field url);
        ("match_score", PInt 0);
        ("german_required", PStr "No");
        ("key_matches", PStr "Analysis failed");
        ("missing_skills", PStr "Analysis failed");
        ("recommendation", PStr "Analysis failed - please review manually")].
Proof.
  intros Hc Ht Hco Hl Hu Hd Hchat Hparse Hnot.
  assert (Hraise : ∃ e, interpret_response E job_data (PyStr.strip text)
                        = Raise e).
  { unfold interpret_response. rewrite Hparse. cbn [res_bind].
    destruct (check_required required_fields result); [| by eauto].
    cbn [res_bind]. unfold build_analyzed_job, job_item.
    rewrite Hc, Ht, Hco, Hl, Hu. cbn [res_bind].
    destruct result; try (by eauto). by destruct (Hnot entries). }
  destruct Hraise as [e He].
  by eapply failed_interpretation_falls_back.
Qed.

(** X12.  When [key_matches] or [missing_skills] of the response is not a
    list of strings, a string or an object (a number, [null], a list with
    a number in it, ...), the join raises and the record is the
    fallback. *)
Theorem unjoinable_field_falls_back (job_data : job)
    (category title company location url description : option string)
    (st : St E) (text : string) (w : World E) (d : pydict) (v : pyval) :
  job_data !! "search_category" = Some category →
  job_data !! "title" = Some title →
  job_data !! "company" = Some company →
  job_data !! "location" = Some location →
  job_data !! "url" = Some url →
  job_data !! "description" = Some description →
  chat_completion E system_prompt
    (user_prompt title (resume self) description) (world st)
  = (Ok (Some text), w) →
  parse_response E (PyStr.strip text) = Ok (PDict d) →
  dict_get "key_matches" d = Some v ∨ dict_get "missing_skills" d = Some v →
  not_joinable v →
  fst (analyze_with_gpt E self job_data st)
  = Ok [("search_category", of_field category);
        ("title", of_field title);
        ("company", of_field company);
        ("location", of_field location);
        ("url", of_field url);
        ("match_score", PInt 0);
        ("german_required", PStr "No");
        ("key_matches", PStr "Analysis failed");
        ("missing_skills", PStr "Analysis failed");
        ("recommendation", PStr "Analysis failed - please review manually")].
Proof.
  intros Hc Ht Hco Hl Hu Hd Hchat Hparse Hfield Hbad.
  assert (Hraise : ∃ e, interpret_response E job_data (PyStr.strip text)
                        = Raise e).
  { unfold interpret_response. rewrite Hparse. cbn [res_bind].
    destruct (check_required required_fields (PDict d)); [| by eauto].
    cbn [res_bind]. unfold build_analyzed_job, job_item.
    rewrite Hc, Ht, Hco, Hl, Hu. cbn [res_bind].
    unfold py_subscript, dict_item.
    destruct (dict_get "match_score" d); [| by eauto]. cbn [res_bind].
    destruct (dict_get "german_required" d); [| by eauto]. cbn [res_bind].
    destruct Hfield as [Hk|Hm].
    - rewrite Hk. cbn [res_bind].
      rewrite (not_joinable_raises _ _ Hbad). by eauto.
    - destruct (dict_get "key_matches" d) as [km|]; [| by eauto].
      cbn [res_bind].
      destruct (py_join "; " km); [| by eauto]. cbn [res_bind].
      rewrite Hm. cbn [res_bind].
      rewrite (not_joinable_raises _ _ Hbad). by eauto. }
  destruct Hraise as [e He].
  by eapply failed_interpretation_falls_back.
Qed.

(** X13.  When [key_matches] of the response is a string instead of a
    list, the join runs over its characters: the record carries the
    characters of the string separated by [; ], not the string. *)
Theorem string_field_is_joined_by_character (job_data : job)
    (category title company location url description : option string)
    (st : St E) (text : string) (w : World E) (d : pydict)
    (score german recommendation : pyval) (matches : string)
    (ms : list string) :
  job_data !! "search_category" = Some category →
  job_data !! "title" = Some title →
  job_data !! "company" = Some company →
  job_data !! "location" = Some location →
  job_data !! "url" = Some url →
  job_data !! "description" = Some description →
  chat_completion E system_prompt
    (user_prompt title (resume self) description) (world st)
  = (Ok (Some text), w) →
  parse_response E (PyStr.strip text) = Ok (PDict d) →
  dict_get "match_score" d = Some score →
  dict_get "german_required" d = Some german →
  dict_get "key_matches" d = Some (PStr matches) →
  dict_get "missing_skills" d = Some (PList (map PStr ms)) →
  dict_get "recommendation" d = Some recommendation →
  fst (analyze_with_gpt E self job_data st)
  = Ok [("search_category", of_field category);
        ("title", of_field title);
        ("company", of_field company);
        ("location", of_field location);
        ("url", of_field url);
        ("match_score", score);
        ("german_required", german);
        ("key_matches", PStr (PyStr.join "; " (PyStr.chars matches)));
        ("missing_skills", PStr (PyStr.join "; " ms));
        ("recommendation", recommendation)].
Proof.
  intros Hc Ht Hco Hl Hu Hd Hchat Hparse Hs Hg Hk Hm Hr.
  pose proof (analyze_attempt_unfold E self job_data _ _ st Ht Hd) as Hrun.
  pose proof (chat_world E system_prompt
                (user_prompt title (resume self) description) st) as Hw.
  rewrite Hchat in Hw. simpl in Hw.
  destruct (chat E system_prompt _ st) as [r st'].
  simpl in Hw. subst r.
  assert (Hi : ∃ r, interpret_response E job_data (PyStr.strip text) = Ok r
                    ∧ r = [("search_category", of_field category);
                           ("title", of_field title);
                           ("company", of_field company);
                           ("location", of_field location);
                           ("url", of_field url);
                           ("match_score", score);
                           ("german_required", german);
                           ("key_matches",
                            PStr (PyStr.join "; " (PyStr.chars matches)));
                           ("missing_skills", PStr (PyStr.join "; " ms));
                           ("recommendation", recommendation)]).
  { eexists. split; [| reflexivity].
    unfold interpret_response. rewrite Hparse. cbn [res_bind].
    rewrite check_required_dict.
    2:{ unfold required_fields. repeat constructor; by eauto. }
    unfold build_analyzed_job, job_item, py_subscript, dict_item.
    rewrite Hc, Ht, Hco, Hl, Hu, Hs, Hg, Hk, Hm, Hr. cbn [res_bind py_join].
    by rewrite strings_of_strs. }
  destruct Hi as (r & Hi & ->). rewrite Hi in Hrun.
  by rewrite (analyze_with_gpt_succeeded E self _ _ _ _ Hrun).
Qed.

End AnalyzerMore.

(** ** More on the orchestrator *)

Section OrchestratorMore.

Variable E : Env.
Variable self : analyzer.

Lemma same_identity_insert_description (job_data : job)
    (description : option string) (r : pydict) :
  same_identity (<["description" := description]> job_data) r →
  same_identity job_data r.
Proof.
  unfold same_identity. by rewrite !lookup_insert_ne by done.
Qed.

(** The loop body adds nothing, or one record that carries the identity
    fields of its job. *)
Lemma process_job_rows (job_data : job) (analyzed_jobs out : list pydict)
    (st st' : St E) :
  process_job E self job_data analyzed_jobs st = (Ok out, st') →
  out = analyzed_jobs
  ∨ ∃ r, out = analyzed_jobs ++ [r] ∧ same_identity job_data r.
Proof.
  unfold process_job, try_except, bind, lift.
  destruct (job_item "title" job_data) as [title|e]; [| done].
  destruct (job_item "url" job_data) as [url|e];
    [| by intros [= <- _]; left].
  destruct (extract_job_description E url 3 st) as [[description|e] st1];
    [| by intros [= <- _]; left].
  destruct (negb (truthy description)); [by intros [= <- _]; left |].
  destruct (analyze_with_gpt E self _ st1) as [[r|e] st2] eqn:Hrun;
    [| by intros [= <- _]; left].
  destruct r as [|x r]; intros [= <- _]; [by left |].
  right. exists (x :: r). split; [done |].
  eapply same_identity_insert_description.
  by eapply (analyze_with_gpt_identity E self).
Qed.

Lemma analyze_jobs_rows (unique_jobs : list job) :
  ∀ (analyzed_jobs out : list pydict) (st st' : St E),
    analyze_jobs E self unique_jobs analyzed_jobs st = (Ok out, st') →
    ∃ kept new,
      out = analyzed_jobs ++ new
      ∧ sublist kept unique_jobs
      ∧ Forall2 same_identity kept new.
Proof.
  induction unique_jobs as [|job_data rest IH];
    intros analyzed_jobs out st st'; simpl.
  - intros [= <- _]. exists [], []. rewrite app_nil_r.
    by split; [| split; constructor].
  - unfold bind.
    destruct (process_job E self job_data analyzed_jobs st)
      as [[mid|e] st1] eqn:Hstep; [| done].
    intros Hrest. destruct (IH _ _ _ _ Hrest) as (kept & new & -> & Hsub & Hid).
    destruct (process_job_rows _ _ _ _ _ Hstep) as [->|(r & -> & Hr)].
    + exists kept, new. split; [done |]. split; [by apply sublist_cons | done].
    + exists (job_data :: kept), (r :: new). rewrite <- app_assoc.
      split; [done |]. split; [by apply sublist_skip | by constructor].
Qed.

(** X14.  The records that leave the analysis loop stand, in order, for a
    subsequence of the unique jobs: each job gives at most one record, and
    the record carries the identity fields of its job. *)
Theorem analysis_rows_follow_jobs (unique_jobs : list job)
    (analyzed_jobs : list pydict) (st st' : St E) :
  analyze_jobs E self unique_jobs [] st = (Ok analyzed_jobs, st') →
  ∃ kept,
    sublist kept unique_jobs
    ∧ Forall2 same_identity kept analyzed_jobs
    ∧ (length analyzed_jobs ≤ length unique_jobs)%nat.
Proof.
  intros Hrun.
  destruct (analyze_jobs_rows _ _ _ _ _ Hrun) as (kept & new & -> & Hsub & Hid).
  exists kept. simpl. split; [done |]. split; [done |].
  rewrite <- (Forall2_length _ _ _ Hid). by apply sublist_length.
Qed.

Lemma of_field_inj (a b : option (option string)) :
  of_field <$> a = of_field <$> b → a = b.
Proof.
  destruct a as [[x|]|], b as [[y|]|]; simpl; try done.
  by intros [= ->].
Qed.

(** X15.  No two records that leave the analysis loop have the same URL,
    the jobs analyzed being the result of [remove_duplicates]. *)
Theorem analyzed_urls_are_distinct (all_jobs unique_jobs : list job)
    (analyzed_jobs : list pydict) (st st' : St E) :
  remove_duplicates all_jobs = Ok unique_jobs →
  analyze_jobs E self unique_jobs [] st = (Ok analyzed_jobs, st') →
  NoDup (map (dict_get "url") analyzed_jobs).
Proof.
  unfold remove_duplicates. intros Hdedupe Hrun.
  destruct (remove_duplicates_loop_inv _ _ _ _ Hdedupe) as [_ ->]. simpl in *.
  destruct (analyze_jobs_rows _ _ _ _ _ Hrun) as (kept & new & -> & Hsub & Hid).
  simpl.
  assert (Hkept : NoDup ((λ j : job, j !! "url") <$> kept)).
  { apply (sublist_NoDup _ ((λ j : job, j !! "url") <$> keep_new ∅ all_jobs)).
    - apply keep_new_NoDup.
    - by apply fmap_sublist. }
  clear Hsub Hrun Hdedupe.
  induction Hid as [|j r kept new Hjr Hid IH]; simpl; [constructor |].
  rewrite fmap_cons in Hkept. apply NoDup_cons in Hkept as [Hhead Hkept].
  constructor; [| by apply IH].
  intros Hin. apply Hhead.
  apply list_elem_of_In, in_map_iff in Hin as (r' & Heq & Hr').
  apply list_elem_of_In in Hr'.
  destruct (proj1 (list_elem_of_lookup _ _) Hr') as [i Hi].
  destruct (Forall2_lookup_r _ _ _ _ _ Hid Hi) as (j' & Hj' & Hid').
  apply list_elem_of_fmap. exists j'.
  split; [| by eapply list_elem_of_lookup_2].
  apply of_field_inj.
  destruct Hjr as (_ & _ & _ & _ & <-). destruct Hid' as (_ & _ & _ & _ & <-).
  done.
Qed.

(** With the identity fields present the loop body returns. *)
Lemma process_job_total (job_data : job) (analyzed_jobs : list pydict)
    (st : St E) :
  has_identity job_data →
  ∃ out st', process_job E self job_data analyzed_jobs st = (Ok out, st').
Proof.
  intros ([c Hc] & [t Ht] & [co Hco] & [l Hl] & [u Hu]).
  unfold process_job, try_except, bind, lift, job_item. rewrite Ht, Hu.
  unfold extract_job_description.
  destruct (attempt_loop_opens E u 3 (seqZ 0 3) st)
    as (description & st1 & k & -> & _).
  destruct (negb (truthy description)); [by eauto |].
  destruct (analyze_with_gpt_total E self
              (<["description" := description]> job_data) c t co l u st1)
    as (r & st2 & ->); try by rewrite lookup_insert_ne.
  destruct r; by eauto.
Qed.

Lemma analyze_jobs_total (unique_jobs : list job) :
  Forall has_identity unique_jobs →
  ∀ (analyzed_jobs : list pydict) (st : St E),
    ∃ out st',
      analyze_jobs E self unique_jobs analyzed_jobs st = (Ok out, st').
Proof.
  induction 1 as [|job_data rest Hjob _ IH]; intros analyzed_jobs st.
  - by exists analyzed_jobs, st.
  - cbn [analyze_jobs]. unfold bind.
    destruct (process_job_total job_data analyzed_jobs st Hjob)
      as (mid & st1 & ->).
    apply IH.
Qed.

(** X16.  Whatever the pages and the oracle do, the first three phases of
    [process_jobs] complete without raising: the harvest returns, its
    records all have a URL so that [remove_duplicates] returns, and the
    analysis loop returns. *)
Theorem pipeline_phases_complete (st : St E) :
  ∃ all_jobs st1 unique_jobs analyzed_jobs st3,
    harvest_categories E self (search_categories self) [] st
    = (Ok all_jobs, st1)
    ∧ remove_duplicates all_jobs = Ok unique_jobs
    ∧ analyze_jobs E self unique_jobs [] st1 = (Ok analyzed_jobs, st3)
    ∧ process_jobs E self st = save_results E self analyzed_jobs st3.
Proof.
  destruct (harvest_categories_identity E self (search_categories self) [] st)
    as (all_jobs & st1 & H1 & Hall & _).
  simpl in H1.
  assert (Hurl : Forall has_url all_jobs).
  { eapply Forall_impl; [exact Hall |]. by intros j (_ & _ & _ & _ & Hu). }
  pose proof (remove_duplicates_loop_keep_new all_jobs Hurl [] ∅) as H2.
  simpl in H2.
  assert (Hunique : Forall has_identity (keep_new ∅ all_jobs)).
  { apply Forall_forall. intros j Hin. rewrite Forall_forall in Hall.
    apply Hall. eapply elem_of_sublist; [exact Hin | apply keep_new_sublist]. }
  destruct (analyze_jobs_total _ Hunique [] st1) as (analyzed_jobs & st3 & H3).
  exists all_jobs, st1, (keep_new ∅ all_jobs), analyzed_jobs, st3.
  split; [done |]. split; [done |]. split; [done |].
  unfold process_jobs, bind, lift. rewrite H1.
  unfold remove_duplicates. by rewrite H2, H3.
Qed.

(** X17.  For one job the loop body opens at most three pages and sends at
    most one request to the oracle. *)
Theorem job_costs_three_pages_one_request (job_data : job)
    (analyzed_jobs : list pydict) (st st' : St E) (r : res (list pydict)) :
  process_job E self job_data analyzed_jobs st = (r, st') →
  (length (fetched st') ≤ length (fetched st) + 3)%nat
  ∧ (length (asked st') ≤ length (asked st) + 1)%nat.
Proof.
  unfold process_job, try_except, bind, lift, job_item.
  destruct (job_data !! "title") as [title|]; [| by intros [= _ <-]; lia].
  destruct (job_data !! "url") as [url|]; [| by intros [= _ <-]; lia].
  unfold extract_job_description.
  destruct (attempt_loop_opens E url 3 (seqZ 0 3) st)
    as (description & st1 & k & Hfetch & Hk & Hf).
  pose proof (proj1 (extract_job_description_quiet E url 3 st st1 _ Hfetch))
    as Ha.
  rewrite Hfetch.
  assert (Hlen : (length (fetched st1) ≤ length (fetched st) + 3)%nat).
  { rewrite Hf, length_app, length_replicate. simpl in Hk. lia. }
  destruct (negb (truthy description)); [intros [= _ <-]; rewrite Ha; lia |].
  destruct (analyze_with_gpt E self _ st1) as [ra st2] eqn:Hrun.
  destruct (analyze_with_gpt_effects E self _ _ _ _ Hrun)
    as (Hf2 & _ & _ & _ & Ha2).
  assert (Hasked : (length (asked st2) ≤ length (asked st) + 1)%nat).
  { rewrite Ha2, <- Ha.
    repeat case_match; rewrite ?length_app; simpl; lia. }
  destruct ra as [[|x ra]|e]; intros [= _ <-]; rewrite ?Hf2; lia.
Qed.

(** The harvest with no page to visit, or no category, does nothing. *)
Lemma harvest_categories_nothing (categories : list string)
    (all_jobs : list job) (st : St E) :
  max_pages self ≤ 0 ∨ categories = [] →
  harvest_categories E self categories all_jobs st = (Ok all_jobs, st).
Proof.
  intros [Hpages| ->]; [| done].
  induction categories as [|category rest IH]; [done |].
  cbn [harvest_categories]. rewrite seqZ_nil by done. apply IH.
Qed.

(** X18.  With [max_pages <= 0], or with no category, [process_jobs] does
    nothing at all: no page is opened, the oracle is not asked, no file is
    written, nothing is logged. *)
Theorem nothing_to_harvest (st : St E) :
  max_pages self ≤ 0 ∨ search_categories self = [] →
  process_jobs E self st = (Ok tt, st).
Proof.
  intros Hnone. unfold process_jobs, bind, lift.
  by rewrite harvest_categories_nothing.
Qed.

End OrchestratorMore.

(** ** Configuration and command line *)

Section ConfigFacts.

Import Config.

Lemma split_comma_not_nil (s : string) : split_comma s ≠ [].
Proof.
  destruct s as [|c s]; simpl; [done |].
  destruct (Ascii.eqb c ","); [done |]. by destruct (split_comma s).
Qed.

Lemma split_comma_single_empty (s : string) :
  split_comma s = [EmptyString] → s = EmptyString.
Proof.
  destruct s as [|c s]; simpl; [done |].
  pose proof (split_comma_not_nil s) as Hne.
  destruct (Ascii.eqb c ","); destruct (split_comma s); try done.
Qed.

Lemma join_split_comma (s : string) : PyStr.join "," (split_comma s) = s.
Proof.
  induction s as [|c s IH]; simpl; [done |].
  pose proof (split_comma_not_nil s) as Hne.
  destruct (Ascii.eqb c ",") eqn:Hc.
  - apply Ascii.eqb_eq in Hc as ->.
    destruct (split_comma s) as [|p ps]; [done |].
    change (PyStr.join "," (EmptyString :: p :: ps))
      with ("," +:+ PyStr.join "," (p :: ps)).
    by rewrite IH.
  - destruct (split_comma s) as [|p ps]; [done |].
    rewrite <- IH. by destruct ps.
Qed.

(** X20.  Without [OPENAI_API_KEY], or with an empty one, [Config] raises
    the [ValueError] before it looks at anything else: the resume file,
    the page count and the directories play no part. *)
Theorem config_requires_api_key (environ : gmap string string)
    (fs : file_system) (int : string → res Z) :
  environ !! "OPENAI_API_KEY" = None
  ∨ environ !! "OPENAI_API_KEY" = Some EmptyString →
  init environ fs int
  = Raise (ValueError "OPENAI_API_KEY environment variable is required").
Proof. unfold init. by intros [-> | ->]. Qed.

(** X21.  A [Config] that is built never has an empty category list: with
    [SEARCH_CATEGORIES] unset or empty it is the six default categories;
    otherwise it is the value cut at the commas, pieces kept as they are
    (joined by commas they give the value back). *)
Theorem config_categories (environ : gmap string string) (fs : file_system)
    (int : string → res Z) (c : t) :
  init environ fs int = Ok c →
  search_categories c ≠ []
  ∧ (environ !! "SEARCH_CATEGORIES" = None
     ∨ environ !! "SEARCH_CATEGORIES" = Some EmptyString →
     search_categories c = DEFAULT_SEARCH_CATEGORIES)
  ∧ (∀ value,
       environ !! "SEARCH_CATEGORIES" = Some value → value ≠ EmptyString →
       search_categories c = split_comma value
       ∧ PyStr.join "," (search_categories c) = value).
Proof.
  unfold init.
  destruct (environ !! "OPENAI_API_KEY") as [key|]; [| done].
  destruct (PyStr.is_empty key); [done |].
  destruct (negb (path_exists fs _)); [done |].
  destruct (int _) as [pages|e]; [| done]. cbn [res_bind].
  destruct (makedirs fs (getenv environ "OUTPUT_DIR" "output")); [| done].
  cbn [res_bind].
  destruct (makedirs fs (getenv environ "LOGS_DIR" "logs")); [| done].
  cbn [res_bind]. intros [= <-]. simpl.
  unfold getenv.
  destruct (environ !! "SEARCH_CATEGORIES") as [value|] eqn:Hvalue.
  - pose proof (split_comma_not_nil value) as Hne.
    pose proof (split_comma_single_empty value) as Hsingle.
    pose proof (join_split_comma value) as Hjoin.
    destruct (split_comma value) as [|p ps] eqn:Hsplit; [done |].
    split; [| split].
    + destruct p; destruct ps; done.
    + intros [Hnone|Hempty]; [done |].
      injection Hempty as ->. simpl in Hsplit. by injection Hsplit as <- <-.
    + intros value' [= <-] Hvalue'.
      pose proof (join_split_comma value) as Hjoin'. rewrite Hsplit in Hjoin'.
      destruct p as [|ch p]; [destruct ps as [|q ps] |]; done.
  - split; [done |]. split; [done |]. by intros value [=].
Qed.

(** X22.  A command-line value replaces the environment's value of its own
    variable and of no other; an empty text, or a page count of 0, counts
    as not given and leaves the variable as it was. *)
Theorem arguments_override_environment (args : arguments)
    (environ : gmap string string) :
  let environ' := apply_arguments args environ in
  environ' !! "RESUME_PATH"
  = match arg_resume args with
    | Some value =>
        if PyStr.is_empty value then environ !! "RESUME_PATH" else Some value
    | None => environ !! "RESUME_PATH"
    end
  ∧ environ' !! "SEARCH_CATEGORIES"
    = match arg_categories args with
      | Some value =>
          if PyStr.is_empty value then environ !! "SEARCH_CATEGORIES"
          else Some value
      | None => environ !! "SEARCH_CATEGORIES"
      end
  ∧ environ' !! "MAX_PAGES"
    = match arg_max_pages args with
      | Some n => if n =? 0 then environ !! "MAX_PAGES" else Some (pretty n)
      | None => environ !! "MAX_PAGES"
      end
  ∧ environ' !! "OUTPUT_DIR"
    = match arg_output_dir args with
      | Some value =>
          if PyStr.is_empty value then environ !! "OUTPUT_DIR" else Some value
      | None => environ !! "OUTPUT_DIR"
      end
  ∧ ∀ name,
      name ∉ ["RESUME_PATH"; "SEARCH_CATEGORIES"; "MAX_PAGES"; "OUTPUT_DIR"] →
      environ' !! name = environ !! name.
Proof.
  unfold apply_arguments, set_if_text.
  destruct args as [[resume|] [categories|] [pages|] [output|]]; simpl;
    repeat match goal with
           | |- context [PyStr.is_empty ?s] => destruct (PyStr.is_empty s)
           | |- context [?n =? 0] => destruct (n =? 0)
           end;
    repeat split;
    try (intros name Hname;
         repeat (apply not_elem_of_cons in Hname as [? Hname]));
    by simplify_map_eq.
Qed.

(** X23.  Categories given on the command line win over the environment:
    the [Config] built after [main] has written the arguments to the
    environment has exactly the pieces of the argument. *)
Theorem command_line_categories_win (args : arguments)
    (environ : gmap string string) (fs : file_system)
    (int : string → res Z) (c : t) (value : string) :
  arg_categories args = Some value →
  value ≠ EmptyString →
  init (apply_arguments args environ) fs int = Ok c →
  search_categories c = split_comma value.
Proof.
  intros Harg Hvalue Hinit.
  assert (Hset : apply_arguments args environ !! "SEARCH_CATEGORIES"
                 = Some value).
  { unfold apply_arguments, set_if_text. rewrite Harg.
    destruct value as [|a value]; [done |]. simpl.
    destruct (arg_resume args) as [resume|];
      destruct (arg_max_pages args) as [pages|];
      destruct (arg_output_dir args) as [output|];
      repeat match goal with
             | |- context [PyStr.is_empty ?s] => destruct (PyStr.is_empty s)
             | |- context [?n =? 0] => destruct (n =? 0)
             end;
      by simplify_map_eq. }
  revert Hinit. unfold init.
  destruct (_ !! "OPENAI_API_KEY") as [key|]; [| done].
  destruct (PyStr.is_empty key); [done |].
  destruct (negb (path_exists fs _)); [done |].
  destruct (int _) as [pages|e]; [| done]. cbn [res_bind].
  destruct (makedirs fs (getenv _ "OUTPUT_DIR" "output")); [| done].
  cbn [res_bind].
  destruct (makedirs fs (getenv _ "LOGS_DIR" "logs")); [| done].
  cbn [res_bind]. intros [= <-]. simpl.
  unfold getenv. rewrite Hset.
  pose proof (split_comma_not_nil value) as Hne.
  pose proof (split_comma_single_empty value) as Hsingle.
  destruct (split_comma value) as [|p ps]; [done |].
  destruct p as [|ch p]; [destruct ps as [|q ps] |]; try done.
  by destruct Hvalue, Hsingle.
Qed.

End ConfigFacts.

(** ** More concrete runs *)

(** X1 at a harvest with one duplicate. *)
Lemma dedupe_idempotent_witness :
  remove_duplicates example_unique = Ok example_unique.
Proof.
  apply (dedupe_idempotent example_harvest).
  apply ok_value. vm_compute. reflexivity.
Defined.

(** X2 at the same harvest and the URL of its duplicated job. *)
Lemma dedupe_keeps_every_url_witness :
  (∃ job_data, job_data ∈ example_unique
               ∧ job_data !! "url" = Some example_url)
  ↔ (∃ job_data, job_data ∈ example_harvest
                 ∧ job_data !! "url" = Some example_url).
Proof.
  apply (dedupe_keeps_every_url example_harvest).
  apply ok_value. vm_compute. reflexivity.
Defined.

(** X3 at a record with no key at all. *)
Lemma dedupe_raises_on_missing_url_witness :
  remove_duplicates [example_job; (∅ : job)] = Raise (KeyError "url").
Proof.
  apply (proj2 (dedupe_raises_on_missing_url [example_job; ∅])).
  intros Hall. apply Forall_cons in Hall as [_ Hall].
  apply Forall_cons in Hall as [[url Hurl] _]. discriminate.
Defined.

(** X4 at a page that fails once and is then read, with three attempts. *)
Lemma fetch_succeeds_on_later_attempt_witness :
  ∃ st',
    extract_job_description (flaky_env 1) example_url 3
      (initial_state (flaky_env 1) 0%nat)
    = (Ok (Some "Lead the strategy team."), st')
    ∧ fetched st' = [] ++ replicate 2 example_url
    ∧ error_log st' = [].
Proof.
  apply (fetch_succeeds_on_later_attempt (flaky_env 1) example_url 3 1
           "Lead the strategy team." (initial_state (flaky_env 1) 0%nat)).
  - lia.
  - simpl. exists TimeoutException, 1%nat. split; [reflexivity |].
    exists 2%nat. reflexivity.
Defined.

(** X6 at page 1 of [project]: one element with all its parts, one
    without a title. *)
Lemma scrape_page_keeps_well_formed_witness :
  scrape_page pipeline_env example_analyzer 1 "project" run_start
  = (Ok (omap (λ el, basic_record el "project") project_page),
     {| world := world run_start;
        fetched := fetched run_start
          ++ [Some (listing_url example_analyzer "project" 1)];
        asked := asked run_start;
        error_log := error_log run_start ++ malformed_entries project_page;
        files := files run_start; console := console run_start |}).
Proof.
  apply (scrape_page_keeps_well_formed pipeline_env example_analyzer 1
           "project" run_start project_page tt).
  reflexivity.
Defined.

(** X7 at a world in which the listings page does not load. *)
Lemma failed_page_ends_category_witness :
  harvest_pages broken_listing_env example_analyzer [1; 2] "strategy" []
    (initial_state broken_listing_env tt)
  = (Ok [],
     logged
       {| world := world (initial_state broken_listing_env tt);
          fetched := [] ++ [Some (listing_url example_analyzer "strategy" 1)];
          asked := []; error_log := []; files := []; console := [] |}
       [LogScrapeError 1]).
Proof.
  apply (failed_page_ends_category broken_listing_env example_analyzer 1 [2]
           "strategy" [] (initial_state broken_listing_env tt)
           TimeoutException tt).
  reflexivity.
Defined.

(** X9 at the example response. *)
Lemma analyzed_record_shape_witness :
  map fst example_analysis = report_keys
  ∧ same_identity example_job example_analysis.
Proof.
  apply (analyzed_record_shape (reply_env example_response) example_analyzer
           example_job (initial_state (reply_env example_response) tt)
           (snd (analyze_with_gpt (reply_env example_response)
                   example_analyzer example_job
                   (initial_state (reply_env example_response) tt)))).
  apply run_result. vm_compute. reflexivity.
Defined.

(** X10 at the example job. *)
Lemma analyzer_asks_at_most_once_witness :
  fetched (snd (analyze_with_gpt (reply_env example_response)
                  example_analyzer example_job
                  (initial_state (reply_env example_response) tt)))
  = fetched (initial_state (reply_env example_response) tt).
Proof.
  apply (analyzer_asks_at_most_once (reply_env example_response)
           example_analyzer example_job
           (initial_state (reply_env example_response) tt) _
           (fst (analyze_with_gpt (reply_env example_response)
                   example_analyzer example_job
                   (initial_state (reply_env example_response) tt)))).
  apply surjective_pairing.
Defined.

(** X11 at a response that is a JSON array. *)
Lemma non_object_response_falls_back_witness :
  fst (analyze_with_gpt (reply_env array_response) example_analyzer
         example_job (initial_state (reply_env array_response) tt))
  = Ok example_fallback.
Proof.
  apply (non_object_response_falls_back (reply_env array_response)
           example_analyzer example_job (Some "strategy")
           (Some "Strategy Lead") (Some "Acme GmbH") (Some "Berlin")
           example_url (Some "Lead the strategy team.")
           (initial_state (reply_env array_response) tt)
           array_response tt (PList [PInt 1; PInt 2]));
    try reflexivity.
  discriminate.
Defined.

(** X12 at a response whose [key_matches] is a number. *)
Lemma unjoinable_field_falls_back_witness :
  fst (analyze_with_gpt (reply_env number_matches_response) example_analyzer
         example_job (initial_state (reply_env number_matches_response) tt))
  = Ok example_fallback.
Proof.
  apply (unjoinable_field_falls_back (reply_env number_matches_response)
           example_analyzer example_job (Some "strategy")
           (Some "Strategy Lead") (Some "Acme GmbH") (Some "Berlin")
           example_url (Some "Lead the strategy team.")
           (initial_state (reply_env number_matches_response) tt)
           number_matches_response tt number_matches_fields (PInt 5));
    try reflexivity; try (left; reflexivity); try exact I.
Defined.

(** X13 at a response whose [key_matches] is the string [SQL]. *)
Lemma string_field_is_joined_by_character_witness :
  dict_get "key_matches"
    (match fst (analyze_with_gpt (reply_env string_matches_response)
                  example_analyzer example_job
                  (initial_state (reply_env string_matches_response) tt))
     with Ok r => r | Raise _ => [] end)
  = Some (PStr "S; Q; L").
Proof.
  rewrite (string_field_is_joined_by_character
             (reply_env string_matches_response)
             example_analyzer example_job (Some "strategy")
             (Some "Strategy Lead") (Some "Acme GmbH") (Some "Berlin")
             example_url (Some "Lead the strategy team.")
             (initial_state (reply_env string_matches_response) tt)
             string_matches_response tt string_matches_fields (PInt 80)
             (PStr "No") (PStr "Apply") "SQL" []);
    reflexivity.
Defined.

(** X14 at the run of [pipeline_env]. *)
Lemma analysis_rows_follow_jobs_witness :
  ∃ kept,
    sublist kept run_unique_jobs
    ∧ Forall2 same_identity kept run_analyzed_jobs
    ∧ (length run_analyzed_jobs ≤ length run_unique_jobs)%nat.
Proof.
  apply (analysis_rows_follow_jobs pipeline_env example_analyzer
           run_unique_jobs run_analyzed_jobs (snd run_harvest)
           (snd run_analysis)).
  apply run_result, ok_value. vm_compute. reflexivity.
Defined.

(** X15 at the run of [pipeline_env]. *)
Lemma analyzed_urls_are_distinct_witness :
  NoDup (map (dict_get "url") run_analyzed_jobs).
Proof.
  apply (analyzed_urls_are_distinct pipeline_env example_analyzer
           run_all_jobs run_unique_jobs run_analyzed_jobs (snd run_harvest)
           (snd run_analysis)).
  - apply ok_value. vm_compute. reflexivity.
  - apply run_result, ok_value. vm_compute. reflexivity.
Defined.

(** X17 at the example job. *)
Lemma job_costs_three_pages_one_request_witness :
  (length (fetched (snd (process_job pipeline_env example_analyzer
                           example_job [] run_start)))
   ≤ length (fetched run_start) + 3)%nat
  ∧ (length (asked (snd (process_job pipeline_env example_analyzer
                           example_job [] run_start)))
     ≤ length (asked run_start) + 1)%nat.
Proof.
  apply (job_costs_three_pages_one_request pipeline_env example_analyzer
           example_job [] run_start _
           (fst (process_job pipeline_env example_analyzer example_job []
                   run_start))).
  apply surjective_pairing.
Defined.

(** X18 at an analyzer that is allowed no page. *)
Lemma nothing_to_harvest_witness :
  process_jobs pipeline_env idle_analyzer run_start = (Ok tt, run_start).
Proof.
  apply (nothing_to_harvest pipeline_env idle_analyzer run_start).
  left. simpl. lia.
Defined.

(** X20 at an empty environment. *)
Lemma config_requires_api_key_witness :
  Config.init ∅ example_fs example_int
  = Raise (ValueError "OPENAI_API_KEY environment variable is required").
Proof.
  apply (config_requires_api_key ∅ example_fs example_int).
  left. reflexivity.
Defined.

(** X21 at an environment that names two categories, the second after a
    blank. *)
Lemma config_categories_witness :
  Config.search_categories example_config ≠ []
  ∧ (∀ value,
       example_environ !! "SEARCH_CATEGORIES" = Some value →
       value ≠ EmptyString →
       Config.search_categories example_config = Config.split_comma value
       ∧ PyStr.join "," (Config.search_categories example_config) = value).
Proof.
  destruct (config_categories example_environ example_fs example_int
              example_config) as (Hne & _ & Hsplit).
  - vm_compute. reflexivity.
  - split; assumption.
Defined.

(** X23 at arguments that name two categories. *)
Lemma command_line_categories_win_witness :
  Config.search_categories
    (match Config.init (Config.apply_arguments example_arguments
                          example_environ) example_fs example_int with
     | Ok c => c
     | Raise _ => example_config
     end)
  = Config.split_comma "data,ops".
Proof.
  apply (command_line_categories_win example_arguments example_environ
           example_fs example_int _ "data,ops").
  - reflexivity.
  - discriminate.
  - apply ok_value. vm_compute. reflexivity.
Defined.
